(** * ToDoList: the task-state engine of [app.py]

    A shallow embedding of the functions of [app.py] that read and write
    [st.session_state.todos] and [st.session_state.next_id], and the
    properties of the task store proved about them.  The Streamlit
    rendering functions ([render_*], [main]) only call the functions
    embedded here and are not modelled. *)

From Stdlib Require Import ZArith NArith List Bool Lia Sorted Permutation.
From Stdlib Require Import Ascii String.
Import ListNotations.

Local Open Scope Z_scope.

(** ** Python strings *)

(** A Python [str] is a sequence of Unicode code points. *)
Definition str : Type := list N.

(** An ASCII literal as a [str]. *)
Definition of_ascii (s : string) : str :=
  map N_of_ascii (list_ascii_of_string s).

(** The code points for which CPython's [str.isspace] holds, the ones
    [str.strip()] removes: U+0009..U+000D, U+001C..U+0020, U+0085, U+00A0,
    U+1680, U+2000..U+200A, U+2028, U+2029, U+202F, U+205F, U+3000. *)
Definition isspace (c : N) : bool :=
  ((0x09 <=? c) && (c <=? 0x0D) ||
   (0x1C <=? c) && (c <=? 0x20) ||
   (c =? 0x85) || (c =? 0xA0) || (c =? 0x1680) ||
   (0x2000 <=? c) && (c <=? 0x200A) ||
   (c =? 0x2028) || (c =? 0x2029) || (c =? 0x202F) || (c =? 0x205F) ||
   (c =? 0x3000))%N.

(** [s.lstrip()]: drop the leading whitespace. *)
Fixpoint lstrip (s : str) : str :=
  match s with
  | [] => []
  | c :: rest => if isspace c then lstrip rest else s
  end.

(** [s.rstrip()]: drop the trailing whitespace. *)
Definition rstrip (s : str) : str := rev (lstrip (rev s)).

(** [s.strip()]: the leading whitespace is skipped first, then the
    trailing whitespace of what is left. *)
Definition strip (s : str) : str := rstrip (lstrip s).

(** Truth value of a [str] in a condition: non-empty. *)
Definition truthy (s : str) : bool :=
  match s with [] => false | _ :: _ => true end.

(** [a == b] on [str]. *)
Fixpoint str_eqb (a b : str) : bool :=
  match a, b with
  | [], [] => true
  | x :: a', y :: b' => (x =? y)%N && str_eqb a' b'
  | _, _ => false
  end.

(** ** The data model *)

(** A to-do entry: the dict built by [add_todo], with keys ['id'],
    ['text'], ['completed'] and ['created_at']. *)
Module Todo.
Record t : Type := mk
  { id : Z;
    text : str;
    completed : bool;
    created_at : str }.

(** [todo['completed'] = b] *)
Definition set_completed (b : bool) (todo : t) : t :=
  {| id := id todo; text := text todo; completed := b;
     created_at := created_at todo |}.

(** [todo['text'] = s] *)
Definition set_text (s : str) (todo : t) : t :=
  {| id := id todo; text := s; completed := completed todo;
     created_at := created_at todo |}.
End Todo.

(** The dict returned by [get_statistics]. *)
Module Stats.
Record t : Type := mk
  { total : Z;
    completed : Z;
    pending : Z }.
End Stats.

(** [st.session_state], restricted to the two attributes the task store
    uses.  An attribute that was never assigned is [None]. *)
Module session_state.
Record t : Type := mk
  { todos : option (list Todo.t);
    next_id : option Z }.
End session_state.

(** The session before [initialize_session_state] ran. *)
Definition empty_session : session_state.t :=
  {| session_state.todos := None; session_state.next_id := None |}.

(** An initialised session: the task store with its task sequence and
    its identifier counter. *)
Definition store (todos : list Todo.t) (next_id : Z) : session_state.t :=
  {| session_state.todos := Some todos;
     session_state.next_id := Some next_id |}.

(** ** Computations over the session *)

(** Reading an attribute that is not set raises [AttributeError]. *)
Inductive exn : Type :=
| AttributeError (name : string).

Inductive result (A : Type) : Type :=
| Ok (a : A)
| Raise (e : exn).
Arguments Ok {A} a.
Arguments Raise {A} e.

(** A function of [app.py]: it runs on the session, and either returns a
    value and the session it leaves, or raises. *)
Definition M (A : Type) : Type :=
  session_state.t -> result (A * session_state.t).

Definition ret {A : Type} (a : A) : M A := fun s => Ok (a, s).

Definition bind {A B : Type} (m : M A) (k : A -> M B) : M B :=
  fun s =>
    match m s with
    | Ok (a, s') => k a s'
    | Raise e => Raise e
    end.

Declare Scope py_scope.
Delimit Scope py_scope with py.
Notation "x <- m ;; k" := (bind m (fun x => k))
  (at level 61, m at next level, right associativity) : py_scope.
Notation "m ;; k" := (bind m (fun _ => k))
  (at level 61, right associativity) : py_scope.
Local Open Scope py_scope.

(** [st.session_state.todos] *)
Definition get_todos : M (list Todo.t) :=
  fun s =>
    match session_state.todos s with
    | Some l => Ok (l, s)
    | None => Raise (AttributeError "todos")
    end.

(** [st.session_state.next_id] *)
Definition get_next_id : M Z :=
  fun s =>
    match session_state.next_id s with
    | Some n => Ok (n, s)
    | None => Raise (AttributeError "next_id")
    end.

(** [st.session_state.todos = l] *)
Definition set_todos (l : list Todo.t) : M unit :=
  fun s =>
    Ok (tt, {| session_state.todos := Some l;
               session_state.next_id := session_state.next_id s |}).

(** [st.session_state.next_id = n] *)
Definition set_next_id (n : Z) : M unit :=
  fun s =>
    Ok (tt, {| session_state.todos := session_state.todos s;
               session_state.next_id := Some n |}).

(** ['todos' in st.session_state] *)
Definition has_todos : M bool :=
  fun s =>
    Ok (match session_state.todos s with Some _ => true | None => false end, s).

(** ['next_id' in st.session_state] *)
Definition has_next_id : M bool :=
  fun s =>
    Ok (match session_state.next_id s with Some _ => true | None => false end, s).

(** [if c: body] without an [else]. *)
Definition when (c : bool) (body : M unit) : M unit :=
  if c then body else ret tt.

(** ** The functions of [app.py] *)

Definition initialize_session_state : M unit :=
  b <- has_todos ;;
  when (negb b) (set_todos []) ;;
  b <- has_next_id ;;
  when (negb b) (set_next_id 1).

(** [add_todo(text)].  [now] is what
    [datetime.now().strftime("%Y-%m-%d %H:%M")] evaluates to in this
    call. *)
Definition add_todo (now : str) (text : str) : M unit :=
  when (truthy (strip text))
    (next_id <- get_next_id ;;
     let todo := {| Todo.id := next_id;
                    Todo.text := strip text;
                    Todo.completed := false;
                    Todo.created_at := now |} in
     todos <- get_todos ;;
     set_todos (todos ++ [todo]) ;;
     next_id <- get_next_id ;;
     set_next_id (next_id + 1)).

Definition delete_todo (todo_id : Z) : M unit :=
  todos <- get_todos ;;
  set_todos (filter (fun todo => negb (Todo.id todo =? todo_id)) todos).

(** The loop shared by [toggle_todo] and [update_todo]:
    [for todo in todos: if todo['id'] == todo_id: body(todo); break].
    The dicts are mutated in place, so the list keeps its length and
    order, and only the first match is touched. *)
Fixpoint for_first (todo_id : Z) (body : Todo.t -> Todo.t)
    (todos : list Todo.t) : list Todo.t :=
  match todos with
  | [] => []
  | todo :: rest =>
      if Todo.id todo =? todo_id
      then body todo :: rest
      else todo :: for_first todo_id body rest
  end.

Definition toggle_todo (todo_id : Z) : M unit :=
  todos <- get_todos ;;
  set_todos
    (for_first todo_id
       (fun todo => Todo.set_completed (negb (Todo.completed todo)) todo)
       todos).

Definition update_todo (todo_id : Z) (new_text : str) : M unit :=
  when (truthy (strip new_text))
    (todos <- get_todos ;;
     set_todos (for_first todo_id (Todo.set_text (strip new_text)) todos)).

(** The filter names of the select box: "완료" (completed) and "미완료"
    (incomplete); "전체" (all) is what the [else] branch is for. *)
Definition filter_completed : str := [0xC644; 0xB8CC]%N.
Definition filter_incomplete : str := [0xBBF8; 0xC644; 0xB8CC]%N.
Definition filter_all : str := [0xC804; 0xCCB4]%N.

Definition get_filtered_todos (filter_type : str) : M (list Todo.t) :=
  if str_eqb filter_type filter_completed then
    todos <- get_todos ;;
    ret (filter (fun todo => Todo.completed todo) todos)
  else if str_eqb filter_type filter_incomplete then
    todos <- get_todos ;;
    ret (filter (fun todo => negb (Todo.completed todo)) todos)
  else
    get_todos.

(** [len(l)] and [sum(l)]. *)
Definition len {A : Type} (l : list A) : Z := Z.of_nat (List.length l).
Definition sum (l : list Z) : Z := fold_left Z.add l 0.

Definition get_statistics : M Stats.t :=
  todos <- get_todos ;;
  let total := len todos in
  todos' <- get_todos ;;
  let completed :=
    sum (map (fun _ => 1) (filter (fun todo => Todo.completed todo) todos')) in
  let pending := total - completed in
  ret {| Stats.total := total;
         Stats.completed := completed;
         Stats.pending := pending |}.

Definition mark_all_completed : M unit :=
  todos <- get_todos ;;
  set_todos (map (Todo.set_completed true) todos).

Definition delete_all_todos : M unit :=
  set_todos [].

(** ** Calls and runs *)

(** One call of a function of the task store, with its arguments (for
    [add_todo], also the clock reading of that call). *)
Inductive op : Type :=
| Initialize
| Add (now text : str)
| Delete (todo_id : Z)
| Toggle (todo_id : Z)
| Update (todo_id : Z) (new_text : str)
| Filtered (filter_type : str)
| Statistics
| MarkAll
| DeleteAll.

(** What a call returns. *)
Inductive retval : Type :=
| RNone
| RTodos (l : list Todo.t)
| RStats (d : Stats.t).

Definition call (o : op) : M retval :=
  match o with
  | Initialize => initialize_session_state ;; ret RNone
  | Add now text => add_todo now text ;; ret RNone
  | Delete todo_id => delete_todo todo_id ;; ret RNone
  | Toggle todo_id => toggle_todo todo_id ;; ret RNone
  | Update todo_id new_text => update_todo todo_id new_text ;; ret RNone
  | Filtered filter_type => l <- get_filtered_todos filter_type ;; ret (RTodos l)
  | Statistics => d <- get_statistics ;; ret (RStats d)
  | MarkAll => mark_all_completed ;; ret RNone
  | DeleteAll => delete_all_todos ;; ret RNone
  end.

(** The calls of [ops], one after the other. *)
Fixpoint run (ops : list op) : M unit :=
  match ops with
  | [] => ret tt
  | o :: rest => call o ;; run rest
  end.

(** The store at first use: no task, [next_id = 1]. *)
Definition initial_store : session_state.t := store [] 1.

(** ** Properties read off a store *)

(** The ids of a task sequence, in order. *)
Definition ids (todos : list Todo.t) : list Z := map Todo.id todos.

(** The data model's invariant: the ids increase strictly along the
    sequence and the counter is above all of them. *)
Definition store_inv (todos : list Todo.t) (next_id : Z) : Prop :=
  StronglySorted Z.lt (ids todos) /\
  Forall (fun i => i < next_id) (ids todos).

(** [selected P l r]: [r] is what is left of [l] when exactly the tasks
    satisfying [P] are kept, each once, in the order they have in [l]. *)
Inductive selected (P : Todo.t -> Prop) : list Todo.t -> list Todo.t -> Prop :=
| selected_nil : selected P [] []
| selected_keep todo l r :
    P todo -> selected P l r -> selected P (todo :: l) (todo :: r)
| selected_drop todo l r :
    ~ P todo -> selected P l r -> selected P (todo :: l) r.

(** [todo'] is [todo] but for its completed flag. *)
Definition same_but_completed (todo todo' : Todo.t) : Prop :=
  Todo.id todo' = Todo.id todo /\
  Todo.text todo' = Todo.text todo /\
  Todo.created_at todo' = Todo.created_at todo.

(** [todo'] is [todo] but for its text. *)
Definition same_but_text (todo todo' : Todo.t) : Prop :=
  Todo.id todo' = Todo.id todo /\
  Todo.completed todo' = Todo.completed todo /\
  Todo.created_at todo' = Todo.created_at todo.

(** [l'] is [l] with the one task [todo] replaced, in its place, by
    [todo']. *)
Definition replaced_one (l l' : list Todo.t) (todo todo' : Todo.t) : Prop :=
  exists l1 l2, l = l1 ++ todo :: l2 /\ l' = l1 ++ todo' :: l2.

(** The number of tasks of [l] whose completed flag is [b]. *)
Definition count_completed (b : bool) (l : list Todo.t) : nat :=
  count_occ bool_dec (map Todo.completed l) b.

(** A call of [add_todo]. *)
Definition is_add (o : op) : bool :=
  match o with Add _ _ => true | _ => false end.

(** A text as the store holds it: not empty, and with no whitespace
    left to strip at either end. *)
Definition text_ok (s : str) : Prop :=
  s <> [] /\ strip s = s.

(** The calls that read [st.session_state.todos]: all but
    [initialize_session_state] and [delete_all_todos], which only assign
    it, and [add_todo] and [update_todo] on a text that strips to the
    empty string, which return at once. *)
Definition reads_todos (o : op) : bool :=
  match o with
  | Initialize | DeleteAll => false
  | Add _ text => truthy (strip text)
  | Update _ new_text => truthy (strip new_text)
  | Delete _ | Toggle _ | Filtered _ | Statistics | MarkAll => true
  end.

(** The calls that read [st.session_state.next_id]: [add_todo] on a text
    that does not strip to the empty string. *)
Definition reads_next_id (o : op) : bool :=
  match o with
  | Add _ text => truthy (strip text)
  | _ => false
  end.

(** The change [toggle_todo] makes to the count of completed tasks when
    it reaches a task whose flag is [b]. *)
Definition toggle_delta (b : bool) : Z := if b then -1 else 1.

(** The number of calls of a run that create a task: the [add_todo]
    calls on a text that does not strip to the empty string. *)
Definition creations (ops : list op) : nat :=
  List.length (filter reads_next_id ops).

(** ** Running the scenario of the specification *)

Definition buy_milk : str := of_ascii "Buy milk".
Definition walk_dog : str := of_ascii "Walk dog".
Definition read_book : str := of_ascii "Read book".
Definition clock1 : str := of_ascii "2025-01-01 09:00".
Definition clock2 : str := of_ascii "2025-01-01 09:05".

(** The first calls of the scenario, from a session not yet initialised. *)
Definition scenario : list op :=
  [Initialize; Add clock1 buy_milk; Add clock1 walk_dog; Toggle 1].

Example scenario_store :
  run scenario empty_session =
  Ok (tt, store [Todo.mk 1 buy_milk true clock1;
                 Todo.mk 2 walk_dog false clock1] 3).
Proof. reflexivity. Qed.

Example scenario_filtered_completed :
  (run scenario ;; get_filtered_todos filter_completed) empty_session =
  Ok ([Todo.mk 1 buy_milk true clock1],
      store [Todo.mk 1 buy_milk true clock1;
             Todo.mk 2 walk_dog false clock1] 3).
Proof. reflexivity. Qed.

Example scenario_filtered_incomplete :
  (run scenario ;; get_filtered_todos filter_incomplete) empty_session =
  Ok ([Todo.mk 2 walk_dog false clock1],
      store [Todo.mk 1 buy_milk true clock1;
             Todo.mk 2 walk_dog false clock1] 3).
Proof. reflexivity. Qed.

Example scenario_statistics :
  (run scenario ;; get_statistics) empty_session =
  Ok (Stats.mk 2 1 1,
      store [Todo.mk 1 buy_milk true clock1;
             Todo.mk 2 walk_dog false clock1] 3).
Proof. reflexivity. Qed.

Example scenario_delete_then_add :
  run (scenario ++ [Delete 2; Statistics; Add clock2 read_book]) empty_session =
  Ok (tt, store [Todo.mk 1 buy_milk true clock1;
                 Todo.mk 3 read_book false clock2] 4).
Proof. reflexivity. Qed.

Example strip_new :
  strip (of_ascii "  new  ") = of_ascii "new".
Proof. reflexivity. Qed.

Example strip_blank :
  strip (of_ascii "   ") = [] /\ strip [] = [] /\
  strip [0x3000; 0x09; 0xA0]%N = [].
Proof. repeat split. Qed.

Example strip_inner :
  strip (of_ascii " a b ") = of_ascii "a b".
Proof. reflexivity. Qed.

Example uninitialised_raises :
  add_todo clock1 buy_milk empty_session = Raise (AttributeError "next_id") /\
  delete_todo 1 empty_session = Raise (AttributeError "todos").
Proof. split; reflexivity. Qed.

(** ** [str.strip] *)

Lemma truthy_true (s : str) : truthy s = true <-> s <> [].
Proof. destruct s; simpl; split; congruence. Qed.

Lemma truthy_false (s : str) : truthy s = false <-> s = [].
Proof. destruct s; simpl; split; congruence. Qed.

(** What [lstrip] drops is whitespace, and what it leaves does not start
    with whitespace. *)
Lemma lstrip_split (s : str) :
  exists ws, s = ws ++ lstrip s /\ forallb isspace ws = true /\
    forall c r, lstrip s = c :: r -> isspace c = false.
Proof.
  induction s as [|c s IH]; simpl.
  - exists []. repeat split; intros; discriminate.
  - destruct (isspace c) eqn:Hc.
    + destruct IH as (ws & Hs & Hws & Hhd).
      exists (c :: ws). simpl. rewrite Hc, Hws. repeat split; auto.
      now rewrite <- Hs.
    + exists []. repeat split. intros c' r [= <- _]. exact Hc.
Qed.

Lemma lstrip_nil (s : str) : lstrip s = [] <-> forallb isspace s = true.
Proof.
  induction s as [|c s IH]; simpl; [tauto|].
  destruct (isspace c); simpl; [exact IH | split; discriminate].
Qed.

Lemma forallb_rev {A : Type} (f : A -> bool) (l : list A) :
  forallb f (rev l) = forallb f l.
Proof.
  induction l as [|a l IH]; simpl; [reflexivity|].
  rewrite forallb_app, IH. simpl. rewrite andb_true_r. apply andb_comm.
Qed.

Lemma rstrip_nil (s : str) : rstrip s = [] <-> forallb isspace s = true.
Proof.
  unfold rstrip. rewrite <- (forallb_rev isspace s), <- lstrip_nil.
  split; intros H.
  - apply (f_equal (@rev N)) in H. now rewrite rev_involutive in H.
  - now rewrite H.
Qed.

(** What [rstrip] drops is whitespace, and what it leaves does not end
    with whitespace. *)
Lemma rstrip_split (s : str) :
  exists ws, s = rstrip s ++ ws /\ forallb isspace ws = true /\
    forall r c, rstrip s = r ++ [c] -> isspace c = false.
Proof.
  unfold rstrip. destruct (lstrip_split (rev s)) as (ws & Hs & Hws & Hhd).
  exists (rev ws). repeat split.
  - rewrite <- rev_app_distr, <- Hs. now rewrite rev_involutive.
  - now rewrite forallb_rev.
  - intros r c H. apply (f_equal (@rev N)) in H.
    rewrite rev_involutive, rev_app_distr in H. simpl in H. eauto.
Qed.

(** [strip] removes a whitespace prefix and a whitespace suffix, and what
    it returns neither starts nor ends with whitespace. *)
Lemma strip_split (s : str) :
  exists ws1 ws2,
    s = ws1 ++ strip s ++ ws2 /\
    forallb isspace ws1 = true /\ forallb isspace ws2 = true /\
    (forall c r, strip s = c :: r -> isspace c = false) /\
    (forall r c, strip s = r ++ [c] -> isspace c = false).
Proof.
  unfold strip.
  destruct (lstrip_split s) as (ws1 & Hs & Hws1 & Hhd).
  destruct (rstrip_split (lstrip s)) as (ws2 & Hl & Hws2 & Hlast).
  exists ws1, ws2. repeat split; auto.
  - now rewrite <- Hl.
  - intros c r H. rewrite H in Hl. simpl in Hl. eauto.
Qed.

(** [strip] returns the empty string exactly on the strings that are
    whitespace only (the empty one among them). *)
Lemma strip_nil (s : str) : strip s = [] <-> forallb isspace s = true.
Proof.
  unfold strip. rewrite rstrip_nil.
  induction s as [|c s IH]; simpl; [tauto|].
  destruct (isspace c) eqn:Hc; simpl; [exact IH|].
  rewrite Hc. simpl. tauto.
Qed.

Lemma lstrip_fixed (s : str) :
  (forall c r, s = c :: r -> isspace c = false) -> lstrip s = s.
Proof.
  destruct s as [|c r]; simpl; [reflexivity|].
  intros H. now rewrite (H c r eq_refl).
Qed.

(** A stripped string is left as it is by [strip]. *)
Lemma strip_idempotent (s : str) : strip (strip s) = strip s.
Proof.
  destruct (strip_split s) as (_ & _ & _ & _ & _ & Hhd & Hlast).
  unfold strip at 1. rewrite (lstrip_fixed _ Hhd).
  unfold rstrip. rewrite lstrip_fixed; [apply rev_involutive|].
  intros c r H. apply (f_equal (@rev N)) in H.
  rewrite rev_involutive in H. simpl in H. eauto.
Qed.

(** ** The functions on an initialised store *)

Lemma add_todo_blank (now text : str) (s : session_state.t) :
  strip text = [] -> add_todo now text s = Ok (tt, s).
Proof. intros H. unfold add_todo. now rewrite H. Qed.

Lemma add_todo_store (now text : str) (l : list Todo.t) (n : Z) :
  strip text <> [] ->
  add_todo now text (store l n) =
  Ok (tt, store (l ++ [Todo.mk n (strip text) false now]) (n + 1)).
Proof.
  intros H. apply truthy_true in H. unfold add_todo. now rewrite H.
Qed.

Lemma delete_todo_store (todo_id : Z) (l : list Todo.t) (n : Z) :
  delete_todo todo_id (store l n) =
  Ok (tt, store (filter (fun todo => negb (Todo.id todo =? todo_id)) l) n).
Proof. reflexivity. Qed.

Lemma toggle_todo_store (todo_id : Z) (l : list Todo.t) (n : Z) :
  toggle_todo todo_id (store l n) =
  Ok (tt, store
            (for_first todo_id
               (fun todo => Todo.set_completed (negb (Todo.completed todo)) todo)
               l) n).
Proof. reflexivity. Qed.

Lemma update_todo_blank (todo_id : Z) (new_text : str) (s : session_state.t) :
  strip new_text = [] -> update_todo todo_id new_text s = Ok (tt, s).
Proof. intros H. unfold update_todo. now rewrite H. Qed.

Lemma update_todo_store (todo_id : Z) (new_text : str) (l : list Todo.t) (n : Z) :
  strip new_text <> [] ->
  update_todo todo_id new_text (store l n) =
  Ok (tt, store (for_first todo_id (Todo.set_text (strip new_text)) l) n).
Proof.
  intros H. apply truthy_true in H. unfold update_todo. now rewrite H.
Qed.

Lemma mark_all_completed_store (l : list Todo.t) (n : Z) :
  mark_all_completed (store l n) =
  Ok (tt, store (map (Todo.set_completed true) l) n).
Proof. reflexivity. Qed.

Lemma delete_all_todos_store (l : list Todo.t) (n : Z) :
  delete_all_todos (store l n) = Ok (tt, store [] n).
Proof. reflexivity. Qed.

Lemma initialize_session_state_store (l : list Todo.t) (n : Z) :
  initialize_session_state (store l n) = Ok (tt, store l n).
Proof. reflexivity. Qed.

Lemma initialize_session_state_empty :
  initialize_session_state empty_session = Ok (tt, initial_store).
Proof. reflexivity. Qed.

Lemma get_filtered_todos_store (filter_type : str) (l : list Todo.t) (n : Z) :
  get_filtered_todos filter_type (store l n) =
  Ok (if str_eqb filter_type filter_completed
      then filter (fun todo => Todo.completed todo) l
      else if str_eqb filter_type filter_incomplete
           then filter (fun todo => negb (Todo.completed todo)) l
           else l,
      store l n).
Proof.
  unfold get_filtered_todos.
  destruct (str_eqb filter_type filter_completed); [reflexivity|].
  destruct (str_eqb filter_type filter_incomplete); reflexivity.
Qed.

Lemma get_statistics_store (l : list Todo.t) (n : Z) :
  get_statistics (store l n) =
  Ok ({| Stats.total := len l;
         Stats.completed :=
           sum (map (fun _ => 1) (filter (fun todo => Todo.completed todo) l));
         Stats.pending :=
           len l -
           sum (map (fun _ => 1) (filter (fun todo => Todo.completed todo) l)) |},
      store l n).
Proof. reflexivity. Qed.

(** ** Lists of tasks *)

Lemma ids_app (l1 l2 : list Todo.t) : ids (l1 ++ l2) = ids l1 ++ ids l2.
Proof. apply map_app. Qed.

Lemma in_ids (todo : Todo.t) (l : list Todo.t) :
  In todo l -> In (Todo.id todo) (ids l).
Proof. apply in_map. Qed.

Section ForFirst.
Variable todo_id : Z.
Variable body : Todo.t -> Todo.t.

(** No task has the id: the loop changes nothing. *)
Lemma for_first_absent (l : list Todo.t) :
  ~ In todo_id (ids l) -> for_first todo_id body l = l.
Proof.
  induction l as [|todo l IH]; simpl; [reflexivity|].
  intros H. destruct (Z.eqb_spec (Todo.id todo) todo_id) as [E|E].
  - exfalso. apply H. now left.
  - f_equal. apply IH. intros Hin. apply H. now right.
Qed.

(** The loop runs its body on the first task that has the id, and on
    that task only. *)
Lemma for_first_present (l1 l2 : list Todo.t) (todo : Todo.t) :
  ~ In todo_id (ids l1) -> Todo.id todo = todo_id ->
  for_first todo_id body (l1 ++ todo :: l2) = l1 ++ body todo :: l2.
Proof.
  intros H E. induction l1 as [|x l1 IH]; simpl.
  - rewrite E, Z.eqb_refl. reflexivity.
  - destruct (Z.eqb_spec (Todo.id x) todo_id) as [Ex|Ex].
    + exfalso. apply H. now left.
    + f_equal. apply IH. intros Hin. apply H. now right.
Qed.

(** Either no task has the id, or the sequence splits at the first
    one. *)
Lemma first_match (l : list Todo.t) :
  ~ In todo_id (ids l) \/
  exists l1 todo l2,
    l = l1 ++ todo :: l2 /\ Todo.id todo = todo_id /\ ~ In todo_id (ids l1).
Proof.
  induction l as [|x l IH]; [left; intros []|].
  destruct (Z.eq_dec (Todo.id x) todo_id) as [E|E].
  - right. exists [], x, l. repeat split; auto.
  - destruct IH as [IH|(l1 & todo & l2 & -> & Ht & Hl1)].
    + left. intros [H|H]; auto.
    + right. exists (x :: l1), todo, l2. repeat split; auto.
      intros [H|H]; auto.
Qed.

Hypothesis body_id : forall todo, Todo.id (body todo) = Todo.id todo.

Lemma ids_for_first (l : list Todo.t) :
  ids (for_first todo_id body l) = ids l.
Proof.
  induction l as [|todo l IH]; simpl; [reflexivity|].
  destruct (Todo.id todo =? todo_id); simpl.
  - now rewrite body_id.
  - f_equal. exact IH.
Qed.

Hypothesis body_involutive : forall todo, body (body todo) = todo.

Lemma for_first_twice (l : list Todo.t) :
  for_first todo_id body (for_first todo_id body l) = l.
Proof.
  induction l as [|todo l IH]; simpl; [reflexivity|].
  destruct (Todo.id todo =? todo_id) eqn:E; simpl.
  - now rewrite body_id, E, body_involutive.
  - rewrite E. f_equal. exact IH.
Qed.
End ForFirst.

(** With unique ids, a task that has the id is the first that has it. *)
Lemma nodup_first (l1 l2 : list Todo.t) (todo : Todo.t) :
  NoDup (ids (l1 ++ todo :: l2)) ->
  ~ In (Todo.id todo) (ids l1) /\ ~ In (Todo.id todo) (ids l2).
Proof.
  rewrite ids_app. simpl. intros H.
  apply NoDup_remove_2 in H. split; intros Hin; apply H, in_or_app; auto.
Qed.

Section Filter.
Variable f : Todo.t -> bool.

Lemma selected_filter (l : list Todo.t) :
  selected (fun todo => f todo = true) l (filter f l).
Proof.
  induction l as [|todo l IH]; simpl; [constructor|].
  destruct (f todo) eqn:E.
  - now apply selected_keep.
  - apply selected_drop; [congruence | exact IH].
Qed.

Lemma filter_all_true (l : list Todo.t) :
  (forall todo, In todo l -> f todo = true) -> filter f l = l.
Proof.
  induction l as [|todo l IH]; simpl; [reflexivity|].
  intros H. rewrite (H todo (or_introl eq_refl)). f_equal.
  apply IH. intros x Hx. apply H. now right.
Qed.

Lemma filter_all_false (l : list Todo.t) :
  (forall todo, In todo l -> f todo = false) -> filter f l = [].
Proof.
  induction l as [|todo l IH]; simpl; [reflexivity|].
  intros H. rewrite (H todo (or_introl eq_refl)).
  apply IH. intros x Hx. apply H. now right.
Qed.
End Filter.

Section Selected.
Variable P : Todo.t -> Prop.

(** [selected] determines its result. *)
Lemma selected_unique (l r r' : list Todo.t) :
  selected P l r -> selected P l r' -> r = r'.
Proof.
  intros H. revert r'.
  induction H as [|todo l r Hp _ IH|todo l r Hp _ IH]; intros r' H';
    inversion H'; subst; try contradiction; auto.
  f_equal. auto.
Qed.

Lemma selected_in (l r : list Todo.t) (todo : Todo.t) :
  selected P l r -> (In todo r <-> In todo l /\ P todo).
Proof.
  induction 1 as [|x l r Hp _ IH|x l r Hp _ IH]; simpl.
  - tauto.
  - rewrite IH. split.
    + intros [->|[H1 H2]]; auto.
    + intros [[->|H1] H2]; auto.
  - rewrite IH. split.
    + intros [H1 H2]; auto.
    + intros [[->|H1] H2]; [contradiction|auto].
Qed.

Lemma selected_app (l1 l2 r1 r2 : list Todo.t) :
  selected P l1 r1 -> selected P l2 r2 -> selected P (l1 ++ l2) (r1 ++ r2).
Proof.
  induction 1; simpl; intros H2; auto;
    [apply selected_keep | apply selected_drop]; auto.
Qed.
End Selected.

(** ** [add_todo] *)

(** C1. [add_todo] on a text that strips to the empty string returns
    without raising and leaves the task sequence and [next_id] as they
    were.  On any other text it appends one task to the sequence, after
    the tasks already there, which stay as they were: its id is the
    value [next_id] had before the call, its text is the stripped input,
    it is not completed, and its creation time is the clock reading of
    the call; and [next_id] is one more than before. *)
Theorem add_todo_spec (now text : str) (l : list Todo.t) (n : Z) :
  (strip text = [] ->
   add_todo now text (store l n) = Ok (tt, store l n)) /\
  (strip text <> [] ->
   exists todo,
     add_todo now text (store l n) = Ok (tt, store (l ++ [todo]) (n + 1)) /\
     Todo.id todo = n /\
     Todo.text todo = strip text /\
     Todo.completed todo = false /\
     Todo.created_at todo = now).
Proof.
  split; intros H.
  - now apply add_todo_blank.
  - eexists. split; [now apply add_todo_store|]. simpl. auto.
Qed.

(** A whitespace-only text, then a text with surrounding whitespace. *)
Lemma add_todo_spec_witness :
  add_todo clock1 (of_ascii "   ") (store [Todo.mk 1 buy_milk true clock1] 2) =
  Ok (tt, store [Todo.mk 1 buy_milk true clock1] 2) /\
  exists todo,
    add_todo clock2 (of_ascii "  Walk dog ")
      (store [Todo.mk 1 buy_milk true clock1] 2) =
    Ok (tt, store ([Todo.mk 1 buy_milk true clock1] ++ [todo]) (2 + 1)) /\
    Todo.id todo = 2 /\
    Todo.text todo = strip (of_ascii "  Walk dog ") /\
    Todo.completed todo = false /\
    Todo.created_at todo = clock2.
Proof.
  split.
  - apply (proj1 (add_todo_spec clock1 (of_ascii "   ") _ 2)). reflexivity.
  - apply (proj2 (add_todo_spec clock2 (of_ascii "  Walk dog ") _ 2)). discriminate.
Defined.

(** ** [delete_todo] *)

Lemma filter_other_ids_absent (todo_id : Z) (l : list Todo.t) :
  ~ In todo_id (ids l) ->
  filter (fun todo => negb (Todo.id todo =? todo_id)) l = l.
Proof.
  intros H. apply filter_all_true. intros todo Hin.
  destruct (Z.eqb_spec (Todo.id todo) todo_id) as [E|E]; [|reflexivity].
  exfalso. apply H. rewrite <- E. now apply in_ids.
Qed.

(** C3. [delete_todo] never raises on a store and does not touch
    [next_id].  It keeps exactly the tasks whose id is not [todo_id], in
    the order they had; so, the ids being unique, a task with that id is
    the one task removed, and when no task has that id the store is left
    as it was.  Deleting the same id a second time changes nothing:
    two calls in a row do what one call does. *)
Theorem delete_todo_spec (todo_id : Z) (l : list Todo.t) (n : Z) :
  exists l',
    delete_todo todo_id (store l n) = Ok (tt, store l' n) /\
    selected (fun todo => Todo.id todo <> todo_id) l l' /\
    (forall l1 todo l2,
       NoDup (ids l) -> l = l1 ++ todo :: l2 -> Todo.id todo = todo_id ->
       l' = l1 ++ l2) /\
    (~ In todo_id (ids l) -> l' = l) /\
    delete_todo todo_id (store l' n) = Ok (tt, store l' n) /\
    (delete_todo todo_id ;; delete_todo todo_id) (store l n) =
    delete_todo todo_id (store l n).
Proof.
  set (keep := fun todo => negb (Todo.id todo =? todo_id)).
  assert (Hkeep : forall todo, keep todo = true <-> Todo.id todo <> todo_id).
  { intros todo. unfold keep.
    destruct (Z.eqb_spec (Todo.id todo) todo_id); simpl; split;
      congruence. }
  assert (Hsel : forall k, selected (fun todo => Todo.id todo <> todo_id) k (filter keep k)).
  { induction k as [|todo k IH]; simpl; [constructor|].
    destruct (keep todo) eqn:E.
    - apply selected_keep; [now apply Hkeep | exact IH].
    - apply selected_drop; [|exact IH].
      intros Hne. apply Hkeep in Hne. congruence. }
  assert (Hidem : filter keep (filter keep l) = filter keep l).
  { apply filter_all_true. intros todo Hin. now apply filter_In in Hin. }
  exists (filter keep l). repeat split.
  - apply Hsel.
  - intros l1 todo l2 Hnd -> Hid. subst todo_id.
    apply nodup_first in Hnd. destruct Hnd as [H1 H2].
    rewrite filter_app. simpl. unfold keep.
    rewrite Z.eqb_refl. simpl.
    now rewrite !filter_other_ids_absent.
  - apply filter_other_ids_absent.
  - rewrite delete_todo_store. fold keep. now rewrite Hidem.
  - unfold bind at 1. rewrite delete_todo_store. fold keep.
    rewrite delete_todo_store. fold keep. now rewrite Hidem.
Qed.

(** Deleting the first of two tasks, then an id no task has. *)
Lemma delete_todo_spec_witness :
  delete_todo 1
    (store [Todo.mk 1 buy_milk true clock1; Todo.mk 2 walk_dog false clock1] 3) =
  Ok (tt, store [Todo.mk 2 walk_dog false clock1] 3) /\
  delete_todo 7
    (store [Todo.mk 1 buy_milk true clock1; Todo.mk 2 walk_dog false clock1] 3) =
  Ok (tt, store [Todo.mk 1 buy_milk true clock1;
                 Todo.mk 2 walk_dog false clock1] 3).
Proof.
  split.
  - destruct (delete_todo_spec 1
      [Todo.mk 1 buy_milk true clock1; Todo.mk 2 walk_dog false clock1] 3)
      as (l' & Hrun & _ & Hpresent & _).
    rewrite Hrun.
    rewrite (Hpresent [] (Todo.mk 1 buy_milk true clock1)
               [Todo.mk 2 walk_dog false clock1]); [reflexivity| |reflexivity|reflexivity].
    simpl. repeat constructor; simpl; intuition discriminate.
  - destruct (delete_todo_spec 7
      [Todo.mk 1 buy_milk true clock1; Todo.mk 2 walk_dog false clock1] 3)
      as (l' & Hrun & _ & _ & Habsent & _).
    rewrite Hrun, Habsent; [reflexivity|].
    simpl. intuition discriminate.
Defined.

(** ** [update_todo] *)

(** C4. [update_todo] never raises on a store.  On a text that strips to
    the empty string it leaves the store, and so the text of every task,
    as it was.  On any other text, the task that has the id (the first
    one in the sequence) gets the stripped text as its text, in its
    place; and when no task has the id the store is left as it was.
    Updating with ["  new  "] sets the text to ["new"]. *)
Theorem update_todo_spec (todo_id : Z) (new_text : str)
    (l : list Todo.t) (n : Z) :
  (strip new_text = [] ->
   update_todo todo_id new_text (store l n) = Ok (tt, store l n)) /\
  (strip new_text <> [] ->
   forall l1 todo l2,
     l = l1 ++ todo :: l2 -> Todo.id todo = todo_id ->
     ~ In todo_id (ids l1) ->
     update_todo todo_id new_text (store l n) =
     Ok (tt, store (l1 ++ Todo.mk (Todo.id todo) (strip new_text)
                            (Todo.completed todo) (Todo.created_at todo)
                       :: l2) n)) /\
  (~ In todo_id (ids l) ->
   update_todo todo_id new_text (store l n) = Ok (tt, store l n)) /\
  update_todo todo_id (of_ascii "  new  ")
    (store [Todo.mk todo_id (of_ascii "old") false clock1] n) =
  Ok (tt, store [Todo.mk todo_id (of_ascii "new") false clock1] n).
Proof.
  split; [|split; [|split]].
  - apply update_todo_blank.
  - intros Hne l1 todo l2 -> Hid Hl1.
    rewrite update_todo_store by assumption.
    now rewrite for_first_present.
  - intros Habs. destruct (strip new_text) eqn:E.
    + now apply update_todo_blank.
    + rewrite update_todo_store by congruence.
      now rewrite for_first_absent.
  - rewrite update_todo_store by discriminate.
    simpl. now rewrite Z.eqb_refl.
Qed.

(** A whitespace-only text, a new text for task 2, and an id no task has. *)
Lemma update_todo_spec_witness :
  update_todo 2 (of_ascii "     ")
    (store [Todo.mk 1 buy_milk true clock1; Todo.mk 2 walk_dog false clock1] 3) =
  Ok (tt, store [Todo.mk 1 buy_milk true clock1;
                 Todo.mk 2 walk_dog false clock1] 3) /\
  update_todo 2 (of_ascii " Read book  ")
    (store [Todo.mk 1 buy_milk true clock1; Todo.mk 2 walk_dog false clock1] 3) =
  Ok (tt, store [Todo.mk 1 buy_milk true clock1;
                 Todo.mk 2 read_book false clock1] 3) /\
  update_todo 5 (of_ascii " Read book  ")
    (store [Todo.mk 1 buy_milk true clock1; Todo.mk 2 walk_dog false clock1] 3) =
  Ok (tt, store [Todo.mk 1 buy_milk true clock1;
                 Todo.mk 2 walk_dog false clock1] 3).
Proof.
  split; [|split].
  - apply (proj1 (update_todo_spec 2 (of_ascii "     ") _ 3)). reflexivity.
  - apply (proj1 (proj2 (update_todo_spec 2 (of_ascii " Read book  ")
             [Todo.mk 1 buy_milk true clock1; Todo.mk 2 walk_dog false clock1] 3))
             ltac:(discriminate)
             [Todo.mk 1 buy_milk true clock1] (Todo.mk 2 walk_dog false clock1) []);
      [reflexivity | reflexivity | simpl; intuition discriminate].
  - apply (proj1 (proj2 (proj2 (update_todo_spec 5 (of_ascii " Read book  ") _ 3)))).
    simpl. intuition discriminate.
Defined.

(** ** [toggle_todo] *)

Lemma set_completed_id (b : bool) (todo : Todo.t) :
  Todo.id (Todo.set_completed b todo) = Todo.id todo.
Proof. reflexivity. Qed.

Lemma toggle_twice (todo : Todo.t) :
  Todo.set_completed
    (negb (Todo.completed (Todo.set_completed (negb (Todo.completed todo)) todo)))
    (Todo.set_completed (negb (Todo.completed todo)) todo) = todo.
Proof. destruct todo as [i t c d]. unfold Todo.set_completed. simpl. now rewrite negb_involutive. Qed.

(** C5. [toggle_todo] never raises on a store.  The task that has the id
    (the first one in the sequence) gets its completed flag negated, in
    its place; when no task has the id the store is left as it was.
    Two calls in a row with the same id leave every store, and so every
    completed flag, as it was. *)
Theorem toggle_todo_spec (todo_id : Z) (l : list Todo.t) (n : Z) :
  (forall l1 todo l2,
     l = l1 ++ todo :: l2 -> Todo.id todo = todo_id ->
     ~ In todo_id (ids l1) ->
     toggle_todo todo_id (store l n) =
     Ok (tt, store (l1 ++ Todo.mk (Todo.id todo) (Todo.text todo)
                            (negb (Todo.completed todo)) (Todo.created_at todo)
                       :: l2) n)) /\
  (~ In todo_id (ids l) ->
   toggle_todo todo_id (store l n) = Ok (tt, store l n)) /\
  (toggle_todo todo_id ;; toggle_todo todo_id) (store l n) =
  Ok (tt, store l n).
Proof.
  split; [|split].
  - intros l1 todo l2 -> Hid Hl1.
    rewrite toggle_todo_store. now rewrite for_first_present.
  - intros Habs. rewrite toggle_todo_store. now rewrite for_first_absent.
  - unfold bind. rewrite !toggle_todo_store.
    rewrite for_first_twice; auto using toggle_twice.
Qed.

(** Toggling task 2, then an id no task has. *)
Lemma toggle_todo_spec_witness :
  toggle_todo 2
    (store [Todo.mk 1 buy_milk true clock1; Todo.mk 2 walk_dog false clock1] 3) =
  Ok (tt, store [Todo.mk 1 buy_milk true clock1;
                 Todo.mk 2 walk_dog true clock1] 3) /\
  toggle_todo 3
    (store [Todo.mk 1 buy_milk true clock1; Todo.mk 2 walk_dog false clock1] 3) =
  Ok (tt, store [Todo.mk 1 buy_milk true clock1;
                 Todo.mk 2 walk_dog false clock1] 3).
Proof.
  split.
  - apply (proj1 (toggle_todo_spec 2
             [Todo.mk 1 buy_milk true clock1; Todo.mk 2 walk_dog false clock1] 3)
             [Todo.mk 1 buy_milk true clock1] (Todo.mk 2 walk_dog false clock1) []);
      [reflexivity | reflexivity | simpl; intuition discriminate].
  - apply (proj1 (proj2 (toggle_todo_spec 3 _ 3))). simpl. intuition discriminate.
Defined.

(** ** [get_filtered_todos] *)

Lemma selected_ext (P Q : Todo.t -> Prop) (l r : list Todo.t) :
  (forall todo, P todo <-> Q todo) -> selected P l r -> selected Q l r.
Proof.
  intros H. induction 1 as [|todo l r Hp _ IH|todo l r Hp _ IH].
  - constructor.
  - apply selected_keep; [now apply H | exact IH].
  - apply selected_drop; [now rewrite <- H | exact IH].
Qed.

Lemma selected_all (l : list Todo.t) : selected (fun _ => True) l l.
Proof. induction l; constructor; auto. Qed.

(** C8. On every store, none of the three filters raises or changes the
    store.  "완료" returns exactly the completed tasks and "미완료"
    exactly the tasks that are not completed, each in the order of the
    store; "전체" returns the whole sequence. *)
Theorem get_filtered_todos_spec (l : list Todo.t) (n : Z) :
  (exists r,
     get_filtered_todos filter_completed (store l n) = Ok (r, store l n) /\
     selected (fun todo => Todo.completed todo = true) l r) /\
  (exists r,
     get_filtered_todos filter_incomplete (store l n) = Ok (r, store l n) /\
     selected (fun todo => Todo.completed todo = false) l r) /\
  (exists r,
     get_filtered_todos filter_all (store l n) = Ok (r, store l n) /\
     selected (fun _ => True) l r /\ r = l).
Proof.
  split; [|split]; eexists; (split; [apply get_filtered_todos_store|]); simpl.
  - apply (selected_filter (fun todo => Todo.completed todo)).
  - apply selected_ext
      with (P := fun todo => negb (Todo.completed todo) = true).
    + intros todo. apply negb_true_iff.
    + apply (selected_filter (fun todo => negb (Todo.completed todo))).
  - split; [apply selected_all | reflexivity].
Qed.

(** Any other filter name is treated as "전체". *)
Lemma get_filtered_todos_else (filter_type : str) (l : list Todo.t) (n : Z) :
  str_eqb filter_type filter_completed = false ->
  str_eqb filter_type filter_incomplete = false ->
  get_filtered_todos filter_type (store l n) = Ok (l, store l n).
Proof. intros H1 H2. now rewrite get_filtered_todos_store, H1, H2. Qed.

(** ** [get_statistics] *)

Lemma sum_ones {A : Type} (k : list A) :
  sum (map (fun _ => 1) k) = Z.of_nat (List.length k).
Proof.
  unfold sum.
  assert (H : forall a, fold_left Z.add (map (fun _ : A => 1) k) a
                        = a + Z.of_nat (List.length k)).
  { induction k as [|x k IH]; intros a; simpl List.length; simpl fold_left.
    - lia.
    - rewrite IH. lia. }
  now rewrite H.
Qed.

Lemma length_filter_completed (l : list Todo.t) :
  List.length (filter (fun todo => Todo.completed todo) l) =
  count_completed true l.
Proof.
  unfold count_completed.
  induction l as [|todo l IH]; simpl; [reflexivity|].
  destruct (Todo.completed todo); simpl; now rewrite IH.
Qed.

Lemma count_completed_total (l : list Todo.t) :
  (count_completed true l + count_completed false l)%nat = List.length l.
Proof.
  unfold count_completed.
  induction l as [|todo l IH]; simpl; [reflexivity|].
  destruct (Todo.completed todo); simpl; lia.
Qed.

(** C9. On every store [get_statistics] returns, without raising or
    changing the store, the number of tasks as [total], the number of
    completed tasks as [completed], and [total - completed] as [pending],
    which is the number of tasks that are not completed.  The three are
    non-negative and [pending + completed = total]. *)
Theorem get_statistics_spec (l : list Todo.t) (n : Z) :
  exists d,
    get_statistics (store l n) = Ok (d, store l n) /\
    Stats.total d = Z.of_nat (List.length l) /\
    Stats.completed d = Z.of_nat (count_completed true l) /\
    Stats.pending d = Stats.total d - Stats.completed d /\
    Stats.pending d = Z.of_nat (count_completed false l) /\
    0 <= Stats.total d /\ 0 <= Stats.completed d /\ 0 <= Stats.pending d /\
    Stats.pending d + Stats.completed d = Stats.total d.
Proof.
  eexists. split; [apply get_statistics_store|]. simpl.
  rewrite sum_ones, length_filter_completed. unfold len.
  pose proof (count_completed_total l). lia.
Qed.

(** ** [mark_all_completed] *)

(** C6. [mark_all_completed] never raises on a store and does not touch
    [next_id].  Every task of the store is afterwards completed, in its
    place and otherwise as it was.  Right after the call the filter
    "미완료" returns no task and the filter "완료" returns the whole
    sequence in its order.  A task added after the call is not
    completed. *)
Theorem mark_all_completed_spec (l : list Todo.t) (n : Z) :
  exists l',
    mark_all_completed (store l n) = Ok (tt, store l' n) /\
    Forall2 (fun todo todo' =>
               same_but_completed todo todo' /\ Todo.completed todo' = true)
            l l' /\
    get_filtered_todos filter_incomplete (store l' n) = Ok ([], store l' n) /\
    get_filtered_todos filter_completed (store l' n) = Ok (l', store l' n) /\
    (forall now text,
       strip text <> [] ->
       exists todo,
         add_todo now text (store l' n) = Ok (tt, store (l' ++ [todo]) (n + 1)) /\
         Todo.completed todo = false).
Proof.
  exists (map (Todo.set_completed true) l).
  assert (Hall : forall todo,
             In todo (map (Todo.set_completed true) l) ->
             Todo.completed todo = true).
  { intros todo Hin. apply in_map_iff in Hin.
    destruct Hin as (x & <- & _). reflexivity. }
  split; [reflexivity|]. split; [|split; [|split]].
  - clear Hall. induction l as [|todo l IH]; simpl; constructor.
    + repeat split.
    + exact IH.
  - rewrite get_filtered_todos_store. simpl.
    rewrite filter_all_false; [reflexivity|].
    intros todo Hin. now rewrite (Hall todo Hin).
  - rewrite get_filtered_todos_store. simpl.
    rewrite filter_all_true; [reflexivity|]. exact Hall.
  - intros now text Hne. eexists.
    split; [now apply add_todo_store | reflexivity].
Qed.

(** A task added after all tasks were marked completed. *)
Lemma mark_all_completed_spec_witness :
  exists l',
    mark_all_completed
      (store [Todo.mk 1 buy_milk true clock1; Todo.mk 2 walk_dog false clock1] 3) =
    Ok (tt, store l' 3) /\
    exists todo,
      add_todo clock2 read_book (store l' 3) =
      Ok (tt, store (l' ++ [todo]) (3 + 1)) /\
      Todo.completed todo = false.
Proof.
  destruct (mark_all_completed_spec
              [Todo.mk 1 buy_milk true clock1; Todo.mk 2 walk_dog false clock1] 3)
    as (l' & Hrun & _ & _ & _ & Hadd).
  exists l'. split; [exact Hrun|].
  apply Hadd. discriminate.
Defined.

(** ** What the calls leave alone *)

Lemma for_first_frame (todo_id : Z) (body : Todo.t -> Todo.t) (l : list Todo.t) :
  for_first todo_id body l = l \/
  exists todo,
    replaced_one l (for_first todo_id body l) todo (body todo) /\
    Todo.id todo = todo_id.
Proof.
  destruct (first_match todo_id l) as [H|(l1 & todo & l2 & -> & Hid & Hl1)].
  - left. now apply for_first_absent.
  - right. exists todo. split; [|exact Hid].
    exists l1, l2. split; [reflexivity|]. now apply for_first_present.
Qed.

(** C10. On every store, a call of any function but [add_todo] returns
    without raising and leaves [next_id] as it was.  [toggle_todo]
    either leaves the task sequence as it was or replaces one task, which
    has the id, in its place, by a task with the same id, text and
    creation time; [update_todo] either leaves the sequence as it was or
    replaces one task, which has the id, in its place, by a task with
    the same id, completed flag and creation time.  All other tasks are
    as they were. *)
Theorem frame_spec (l : list Todo.t) (n : Z) :
  (forall o, is_add o = false ->
     exists r l', call o (store l n) = Ok (r, store l' n)) /\
  (forall todo_id,
     exists l',
       toggle_todo todo_id (store l n) = Ok (tt, store l' n) /\
       (l' = l \/
        exists todo todo',
          replaced_one l l' todo todo' /\ Todo.id todo = todo_id /\
          same_but_completed todo todo')) /\
  (forall todo_id new_text,
     exists l',
       update_todo todo_id new_text (store l n) = Ok (tt, store l' n) /\
       (l' = l \/
        exists todo todo',
          replaced_one l l' todo todo' /\ Todo.id todo = todo_id /\
          same_but_text todo todo')).
Proof.
  split; [|split].
  - intros [|now text|i|i|i new_text|ft| | |] Hadd; try discriminate;
      unfold call, bind.
    + rewrite initialize_session_state_store. now eexists _, _.
    + rewrite delete_todo_store. now eexists _, _.
    + rewrite toggle_todo_store. now eexists _, _.
    + destruct (strip new_text) eqn:E.
      * rewrite update_todo_blank by assumption. now eexists _, _.
      * rewrite update_todo_store by congruence. now eexists _, _.
    + rewrite get_filtered_todos_store. now eexists _, _.
    + rewrite get_statistics_store. now eexists _, _.
    + rewrite mark_all_completed_store. now eexists _, _.
    + rewrite delete_all_todos_store. now eexists _, _.
  - intros i. eexists. split; [apply toggle_todo_store|].
    match goal with |- for_first _ ?b _ = _ \/ _ =>
      destruct (for_first_frame i b l) as [H|(todo & Hrep & Hid)] end;
      [now left|right].
    eexists _, _. split; [exact Hrep|]. split; [exact Hid|].
    repeat split.
  - intros i new_text. destruct (strip new_text) eqn:E.
    + exists l. split; [now apply update_todo_blank | now left].
    + eexists. split; [apply update_todo_store; congruence|].
      destruct (for_first_frame i (Todo.set_text (strip new_text)) l)
        as [H|(todo & Hrep & Hid)]; [now left|right].
      eexists _, _. split; [exact Hrep|]. split; [exact Hid|].
      repeat split.
Qed.

(** A delete leaves the counter at 3. *)
Lemma frame_spec_witness :
  exists r l',
    call (Delete 1)
      (store [Todo.mk 1 buy_milk true clock1; Todo.mk 2 walk_dog false clock1] 3) =
    Ok (r, store l' 3).
Proof.
  apply (proj1 (frame_spec
                  [Todo.mk 1 buy_milk true clock1; Todo.mk 2 walk_dog false clock1]
                  3) (Delete 1)).
  reflexivity.
Defined.

(** ** The invariant of the store *)

Lemma sorted_snoc (k : list Z) (a : Z) :
  StronglySorted Z.lt k -> Forall (fun x => x < a) k ->
  StronglySorted Z.lt (k ++ [a]).
Proof.
  induction 1 as [|x k Hk IH Hx]; simpl; intros Ha.
  - repeat constructor.
  - inversion Ha as [|? ? Hxa Hka]; subst. constructor; [auto|].
    apply Forall_app. split; [exact Hx | repeat constructor; exact Hxa].
Qed.

Lemma sorted_nodup (k : list Z) : StronglySorted Z.lt k -> NoDup k.
Proof.
  induction 1 as [|x k Hk IH Hx]; constructor; [|exact IH].
  intros Hin. rewrite Forall_forall in Hx. specialize (Hx x Hin). lia.
Qed.

Lemma forall_ids_filter (P : Z -> Prop) (f : Todo.t -> bool) (l : list Todo.t) :
  Forall P (ids l) -> Forall P (ids (filter f l)).
Proof.
  induction l as [|todo l IH]; simpl; intros H; [constructor|].
  inversion H; subst. destruct (f todo); simpl; auto.
Qed.

Lemma sorted_ids_filter (f : Todo.t -> bool) (l : list Todo.t) :
  StronglySorted Z.lt (ids l) -> StronglySorted Z.lt (ids (filter f l)).
Proof.
  induction l as [|todo l IH]; simpl; intros H; [constructor|].
  inversion H; subst. destruct (f todo); simpl; auto.
  constructor; auto. now apply forall_ids_filter.
Qed.

Lemma ids_mark_all (l : list Todo.t) :
  ids (map (Todo.set_completed true) l) = ids l.
Proof. unfold ids. rewrite map_map. reflexivity. Qed.

Lemma store_inv_ids (l l' : list Todo.t) (n : Z) :
  ids l' = ids l -> store_inv l n -> store_inv l' n.
Proof. unfold store_inv. now intros ->. Qed.

Lemma store_inv_add (now text : str) (l : list Todo.t) (n : Z) :
  store_inv l n ->
  store_inv (l ++ [Todo.mk n text false now]) (n + 1).
Proof.
  intros [Hs Hb]. split; rewrite ids_app; simpl.
  - now apply sorted_snoc.
  - apply Forall_app. split.
    + eapply Forall_impl; [|exact Hb]. simpl. intros; lia.
    + repeat constructor. lia.
Qed.

(** Closes the case of a call that leaves the store as it is. *)
Ltac store_unchanged Hinv :=
  eexists _, _, _; repeat split; [apply Hinv..|lia].

(** Every call on a store that satisfies the invariant returns, leaves a
    store that satisfies it, and does not lower the counter. *)
Lemma call_store_inv (o : op) (l : list Todo.t) (n : Z) :
  store_inv l n ->
  exists r l' n',
    call o (store l n) = Ok (r, store l' n') /\ store_inv l' n' /\ n <= n'.
Proof.
  intros Hinv.
  destruct o as [|now text|i|i|i new_text|ft| | |]; unfold call, bind.
  - rewrite initialize_session_state_store.
    store_unchanged Hinv.
  - destruct (strip text) eqn:E.
    + rewrite add_todo_blank by assumption.
      store_unchanged Hinv.
    + rewrite add_todo_store by congruence.
      eexists _, _, _. split; [reflexivity|].
      split; [now apply store_inv_add | lia].
  - rewrite delete_todo_store. eexists _, _, _. split; [reflexivity|].
    split; [|lia]. destruct Hinv as [Hs Hb].
    split; [now apply sorted_ids_filter | now apply forall_ids_filter].
  - rewrite toggle_todo_store. eexists _, _, _. split; [reflexivity|].
    split; [|lia]. eapply store_inv_ids; [|exact Hinv].
    now apply ids_for_first.
  - destruct (strip new_text) eqn:E.
    + rewrite update_todo_blank by assumption.
      store_unchanged Hinv.
    + rewrite update_todo_store by congruence.
      eexists _, _, _. split; [reflexivity|].
      split; [|lia]. eapply store_inv_ids; [|exact Hinv].
      now apply ids_for_first.
  - rewrite get_filtered_todos_store.
    store_unchanged Hinv.
  - rewrite get_statistics_store.
    store_unchanged Hinv.
  - rewrite mark_all_completed_store. eexists _, _, _. split; [reflexivity|].
    split; [|lia]. eapply store_inv_ids; [|exact Hinv]. apply ids_mark_all.
  - rewrite delete_all_todos_store. eexists _, _, _. split; [reflexivity|].
    split; [|lia]. split; constructor.
Qed.

Lemma run_store_inv (ops : list op) (l : list Todo.t) (n : Z) :
  store_inv l n ->
  exists l' n',
    run ops (store l n) = Ok (tt, store l' n') /\ store_inv l' n' /\ n <= n'.
Proof.
  revert l n. induction ops as [|o ops IH]; intros l n Hinv; simpl.
  - exists l, n. repeat split; [apply Hinv..|lia].
  - destruct (call_store_inv o l n Hinv) as (r & l1 & n1 & Hcall & Hinv1 & Hle1).
    destruct (IH l1 n1 Hinv1) as (l2 & n2 & Hrun & Hinv2 & Hle2).
    exists l2, n2. unfold bind. rewrite Hcall.
    split; [exact Hrun|]. split; [exact Hinv2 | lia].
Qed.

Lemma run_app (ops1 ops2 : list op) (s : session_state.t) :
  run (ops1 ++ ops2) s = (run ops1 ;; run ops2) s.
Proof.
  revert s. induction ops1 as [|o ops1 IH]; intros s; simpl; [reflexivity|].
  unfold bind in *. destruct (call o s) as [[r s']|e]; [apply IH | reflexivity].
Qed.

Lemma initial_store_inv : store_inv [] 1.
Proof. split; constructor. Qed.

(** An id that is in the store after some calls is below the counter
    after any further calls. *)
Lemma run_ids_below (ops1 ops2 : list op) (l1 l : list Todo.t) (n1 n : Z)
    (todo : Todo.t) :
  run ops1 initial_store = Ok (tt, store l1 n1) ->
  run (ops1 ++ ops2) initial_store = Ok (tt, store l n) ->
  In todo l1 -> Todo.id todo < n.
Proof.
  intros H1 H Hin.
  destruct (run_store_inv ops1 [] 1 initial_store_inv)
    as (l1' & n1' & Hrun1 & Hinv1 & _).
  fold initial_store in Hrun1. rewrite H1 in Hrun1.
  injection Hrun1 as <- <-.
  destruct (run_store_inv ops2 l1 n1 Hinv1) as (l' & n' & Hrun2 & _ & Hle).
  rewrite run_app in H. unfold bind in H. rewrite H1, Hrun2 in H.
  injection H as <- <-.
  destruct Hinv1 as [_ Hb1]. rewrite Forall_forall in Hb1.
  specialize (Hb1 _ (in_ids _ _ Hin)). simpl in Hb1. lia.
Qed.

(** A run of [add_todo] calls on texts that do not strip to the empty
    string appends one task per call, with the ids [n], [n + 1], ... *)
Lemma run_creates (creates : list (str * str)) (l : list Todo.t) (n : Z) :
  Forall (fun c => strip (snd c) <> []) creates ->
  exists new,
    run (map (fun c => Add (fst c) (snd c)) creates) (store l n) =
    Ok (tt, store (l ++ new) (n + Z.of_nat (List.length creates))) /\
    ids new = map (fun k => n + Z.of_nat k) (seq 0 (List.length creates)).
Proof.
  intros H. revert l n.
  induction H as [|[now text] creates Hc _ IH]; intros l n.
  - exists []. simpl. rewrite app_nil_r, Z.add_0_r. split; reflexivity.
  - destruct (IH (l ++ [Todo.mk n (strip text) false now]) (n + 1))
      as (new & Hrun & Hids).
    exists (Todo.mk n (strip text) false now :: new).
    cbn [map run call fst snd List.length]. unfold bind at 1 2.
    rewrite add_todo_store by exact Hc. cbn [ret].
    rewrite Hrun, <- app_assoc. split.
    + replace (n + Z.of_nat (S (List.length creates)))
        with (n + 1 + Z.of_nat (List.length creates)) by lia.
      reflexivity.
    + cbn [ids map seq Todo.id]. fold (ids new). rewrite Hids.
      rewrite Z.add_0_r. f_equal.
      rewrite <- seq_shift, map_map. apply map_ext. intros k. lia.
Qed.

(** C2. Whatever calls are made from the initial store (no task,
    [next_id = 1]), none raises, and in the store they leave the ids are
    pairwise distinct and increase strictly along the sequence, and
    [next_id] is above the id of every task of the store and of every
    task that was in the store after some of the calls, deleted since or
    not.  A run of [add_todo] calls on texts that do not strip to the
    empty string gives the tasks the ids 1, 2, 3, ... in this order. *)
Theorem reachable_ids_spec :
  (forall ops,
     exists l n,
       run ops initial_store = Ok (tt, store l n) /\
       NoDup (ids l) /\
       StronglySorted Z.lt (ids l) /\
       (forall todo, In todo l -> Todo.id todo < n) /\
       (forall ops1 ops2 l1 n1 todo,
          ops = ops1 ++ ops2 ->
          run ops1 initial_store = Ok (tt, store l1 n1) ->
          In todo l1 -> Todo.id todo < n)) /\
  (forall creates,
     Forall (fun c => strip (snd c) <> []) creates ->
     exists l,
       run (map (fun c => Add (fst c) (snd c)) creates) initial_store =
       Ok (tt, store l (1 + Z.of_nat (List.length creates))) /\
       ids l = map (fun k => 1 + Z.of_nat k) (seq 0 (List.length creates))).
Proof.
  split.
  - intros ops.
    destruct (run_store_inv ops [] 1 initial_store_inv)
      as (l & n & Hrun & [Hs Hb] & _).
    exists l, n. split; [exact Hrun|].
    split; [now apply sorted_nodup|]. split; [exact Hs|]. split.
    + intros todo Hin. rewrite Forall_forall in Hb.
      exact (Hb _ (in_ids _ _ Hin)).
    + intros ops1 ops2 l1 n1 todo -> H1 Hin.
      exact (run_ids_below ops1 ops2 l1 l n1 n todo H1 Hrun Hin).
  - intros creates Hc.
    destruct (run_creates creates [] 1 Hc) as (new & Hrun & Hids).
    exists new. split; assumption.
Qed.

(** Three creates in a row get the ids 1, 2 and 3. *)
Lemma reachable_ids_spec_witness :
  exists l,
    run [Add clock1 buy_milk; Add clock1 walk_dog; Add clock2 read_book]
      initial_store =
    Ok (tt, store l (1 + 3)) /\
    ids l = [1 + 0; 1 + 1; 1 + 2].
Proof.
  apply (proj2 reachable_ids_spec
           [(clock1, buy_milk); (clock1, walk_dog); (clock2, read_book)]).
  repeat constructor; discriminate.
Defined.

(** ** [delete_all_todos] *)

(** C7. [delete_all_todos] never raises on a store; it empties the task
    sequence and leaves [next_id] as it was, and [get_statistics] right
    after it returns 0 for [total], [completed] and [pending].  An
    [add_todo], on a text that does not strip to the empty string, right
    after it gives the new task the id [next_id] had before the clear:
    this id is above the id of every task of the store when the store
    satisfies the invariant, and, when the store is what some calls left
    from the initial store, above the id of every task that was in the
    store after some of these calls. *)
Theorem delete_all_todos_spec (l : list Todo.t) (n : Z) :
  delete_all_todos (store l n) = Ok (tt, store [] n) /\
  (delete_all_todos ;; get_statistics) (store l n) =
  Ok (Stats.mk 0 0 0, store [] n) /\
  (forall now text,
     strip text <> [] ->
     exists todo,
       (delete_all_todos ;; add_todo now text) (store l n) =
       Ok (tt, store [todo] (n + 1)) /\
       Todo.id todo = n /\
       (store_inv l n -> forall old, In old l -> Todo.id old < Todo.id todo) /\
       (forall ops1 ops2 l1 n1 old,
          run ops1 initial_store = Ok (tt, store l1 n1) ->
          run (ops1 ++ ops2) initial_store = Ok (tt, store l n) ->
          In old l1 -> Todo.id old < Todo.id todo)).
Proof.
  split; [reflexivity|]. split; [reflexivity|].
  intros now text Hne. exists (Todo.mk n (strip text) false now).
  split.
  - unfold bind. rewrite delete_all_todos_store.
    now rewrite add_todo_store.
  - split; [reflexivity|]. simpl. split.
    + intros [_ Hb] old Hin. rewrite Forall_forall in Hb.
      exact (Hb _ (in_ids _ _ Hin)).
    + intros ops1 ops2 l1 n1 old H1 H Hin.
      exact (run_ids_below ops1 ops2 l1 l n1 n old H1 H Hin).
Qed.

(** Two creates, task 2 deleted, all deleted: the next id is 3, above 2. *)
Lemma delete_all_todos_spec_witness :
  exists todo,
    (delete_all_todos ;; add_todo clock2 read_book)
      (store [Todo.mk 1 buy_milk false clock1] 3) =
    Ok (tt, store [todo] (3 + 1)) /\
    Todo.id todo = 3 /\
    Todo.id (Todo.mk 2 walk_dog false clock1) < Todo.id todo.
Proof.
  destruct (proj2 (proj2 (delete_all_todos_spec
                            [Todo.mk 1 buy_milk false clock1] 3))
              clock2 read_book ltac:(discriminate))
    as (todo & Hrun & Hid & _ & Hold).
  exists todo. split; [exact Hrun|]. split; [exact Hid|].
  apply (Hold [Add clock1 buy_milk; Add clock1 walk_dog] [Delete 2]
           [Todo.mk 1 buy_milk false clock1; Todo.mk 2 walk_dog false clock1] 3).
  - reflexivity.
  - reflexivity.
  - right. left. reflexivity.
Defined.

(** * Further properties of the task store *)

(** ** Sessions that are not initialised *)

(** Every call on an initialised store returns an initialised store. *)
Lemma call_store_ok (o : op) (l : list Todo.t) (n : Z) :
  exists r l' n', call o (store l n) = Ok (r, store l' n').
Proof.
  destruct o as [|now text|i|i|i new_text|ft| | |]; unfold call, bind.
  - rewrite initialize_session_state_store. now eexists _, _, _.
  - destruct (strip text) eqn:E.
    + rewrite add_todo_blank by assumption. now eexists _, _, _.
    + rewrite add_todo_store by congruence. now eexists _, _, _.
  - rewrite delete_todo_store. now eexists _, _, _.
  - rewrite toggle_todo_store. now eexists _, _, _.
  - destruct (strip new_text) eqn:E.
    + rewrite update_todo_blank by assumption. now eexists _, _, _.
    + rewrite update_todo_store by congruence. now eexists _, _, _.
  - rewrite get_filtered_todos_store. now eexists _, _, _.
  - rewrite get_statistics_store. now eexists _, _, _.
  - rewrite mark_all_completed_store. now eexists _, _, _.
  - rewrite delete_all_todos_store. now eexists _, _, _.
Qed.

Lemma run_store_ok (ops : list op) (l : list Todo.t) (n : Z) :
  exists l' n', run ops (store l n) = Ok (tt, store l' n').
Proof.
  revert l n. induction ops as [|o ops IH]; intros l n; simpl.
  - now exists l, n.
  - destruct (call_store_ok o l n) as (r & l1 & n1 & Hcall).
    unfold bind. rewrite Hcall. apply IH.
Qed.

(** X1. [initialize_session_state] never raises, whatever the session
    holds, and leaves an initialised store: an attribute that was set
    keeps its value, a missing [todos] becomes the empty list and a
    missing [next_id] becomes 1.  Running it again changes nothing. *)
Theorem initialize_session_state_fills (s : session_state.t) :
  exists l n,
    initialize_session_state s = Ok (tt, store l n) /\
    match session_state.todos s with Some l0 => l = l0 | None => l = [] end /\
    match session_state.next_id s with Some n0 => n = n0 | None => n = 1 end /\
    (initialize_session_state ;; initialize_session_state) s =
    initialize_session_state s.
Proof.
  destruct s as [[l0|] [n0|]]; eexists _, _;
    (split; [reflexivity|]); simpl; auto.
Qed.

(** X2. Once [initialize_session_state] has run, no sequence of calls
    raises, whatever the session held before; and from the session
    that holds nothing, the store such a sequence leaves satisfies the
    invariant of the store. *)
Theorem run_after_initialize (ops : list op) :
  (forall s, exists l n, run (Initialize :: ops) s = Ok (tt, store l n)) /\
  (exists l n,
     run (Initialize :: ops) empty_session = Ok (tt, store l n) /\
     store_inv l n).
Proof.
  split.
  - intros s. cbn [run call]. unfold bind at 1 2.
    destruct s as [[l0|] [n0|]]; cbn; apply run_store_ok.
  - cbn [run call]. unfold bind at 1 2.
    rewrite initialize_session_state_empty. cbn [ret].
    destruct (run_store_inv ops [] 1 initial_store_inv)
      as (l & n & Hrun & Hinv & _).
    exists l, n. split; assumption.
Qed.

(** X3. A call raises exactly when it reads an attribute the session
    does not hold: [todos] for every call except
    [initialize_session_state], [delete_all_todos], and [add_todo] and
    [update_todo] on a text that strips to the empty string; [next_id]
    for [add_todo] on any other text. *)
Theorem call_raises_iff (o : op) (s : session_state.t) :
  (exists e, call o s = Raise e) <->
  (reads_todos o = true /\ session_state.todos s = None) \/
  (reads_next_id o = true /\ session_state.next_id s = None).
Proof.
  destruct s as [[l0|] [n0|]];
    destruct o as [|now text|i|i|i new_text|ft| | |];
    cbn [reads_todos reads_next_id session_state.todos session_state.next_id];
    try destruct (truthy (strip text)) eqn:Et;
    try destruct (truthy (strip new_text)) eqn:Eu;
    unfold call, bind, add_todo, update_todo, get_filtered_todos;
    rewrite ?Et, ?Eu;
    try destruct (str_eqb ft filter_completed);
    try destruct (str_eqb ft filter_incomplete);
    cbn;
    (split;
     [ intros [e He]; try discriminate He; auto
     | intros [[H1 H2]|[H1 H2]]; try discriminate; eauto ]).
Qed.

(** ** The texts of the store *)

Lemma text_ok_strip (s : str) : strip s <> [] -> text_ok (strip s).
Proof. intros H. split; [exact H | apply strip_idempotent]. Qed.

Lemma text_ok_not_blank (s : str) :
  text_ok s -> forallb isspace s = false.
Proof.
  intros [Hne Hs]. destruct (forallb isspace s) eqn:E; [|reflexivity].
  apply strip_nil in E. congruence.
Qed.

Lemma forall_for_first (P : Todo.t -> Prop) (todo_id : Z)
    (body : Todo.t -> Todo.t) (l : list Todo.t) :
  (forall todo, P todo -> P (body todo)) ->
  Forall P l -> Forall P (for_first todo_id body l).
Proof.
  intros Hbody. induction 1 as [|todo l Hp Hl IH]; simpl; [constructor|].
  destruct (Todo.id todo =? todo_id); constructor; auto.
Qed.

(** Every call keeps the texts of the store non-empty and stripped. *)
Lemma call_store_texts (o : op) (l : list Todo.t) (n : Z) :
  Forall (fun todo => text_ok (Todo.text todo)) l ->
  exists r l' n',
    call o (store l n) = Ok (r, store l' n') /\
    Forall (fun todo => text_ok (Todo.text todo)) l'.
Proof.
  intros Hl.
  destruct o as [|now text|i|i|i new_text|ft| | |]; unfold call, bind.
  - rewrite initialize_session_state_store. now eexists _, _, _.
  - destruct (strip text) eqn:E.
    + rewrite add_todo_blank by assumption. now eexists _, _, _.
    + rewrite add_todo_store by congruence.
      eexists _, _, _. split; [reflexivity|].
      apply Forall_app. split; [exact Hl|].
      constructor; [|constructor]. simpl. apply text_ok_strip. congruence.
  - rewrite delete_todo_store. eexists _, _, _. split; [reflexivity|].
    rewrite Forall_forall in *. intros todo Hin.
    apply filter_In in Hin. now apply Hl.
  - rewrite toggle_todo_store. eexists _, _, _. split; [reflexivity|].
    apply forall_for_first; auto.
  - destruct (strip new_text) eqn:E.
    + rewrite update_todo_blank by assumption. now eexists _, _, _.
    + rewrite update_todo_store by congruence.
      eexists _, _, _. split; [reflexivity|].
      apply forall_for_first; [|exact Hl].
      intros todo _. simpl. apply text_ok_strip. congruence.
  - rewrite get_filtered_todos_store. now eexists _, _, _.
  - rewrite get_statistics_store. now eexists _, _, _.
  - rewrite mark_all_completed_store. eexists _, _, _. split; [reflexivity|].
    rewrite Forall_forall in *. intros todo Hin. apply in_map_iff in Hin.
    destruct Hin as (x & <- & Hx). exact (Hl x Hx).
  - rewrite delete_all_todos_store. eexists _, _, _. split; [reflexivity|].
    constructor.
Qed.

Lemma run_store_texts (ops : list op) (l : list Todo.t) (n : Z) :
  Forall (fun todo => text_ok (Todo.text todo)) l ->
  exists l' n',
    run ops (store l n) = Ok (tt, store l' n') /\
    Forall (fun todo => text_ok (Todo.text todo)) l'.
Proof.
  revert l n. induction ops as [|o ops IH]; intros l n Hl; simpl.
  - now exists l, n.
  - destruct (call_store_texts o l n Hl) as (r & l1 & n1 & Hcall & Hl1).
    unfold bind. rewrite Hcall. now apply IH.
Qed.

(** X4. Whatever calls are made from the initial store, every task of
    the store they leave has a text that is not empty, that [strip]
    leaves as it is, and that is not made of whitespace only: neither
    [add_todo] nor [update_todo] ever stores a blank or unstripped
    text. *)
Theorem reachable_texts_stripped (ops : list op) :
  exists l n,
    run ops initial_store = Ok (tt, store l n) /\
    forall todo,
      In todo l ->
      Todo.text todo <> [] /\
      strip (Todo.text todo) = Todo.text todo /\
      forallb isspace (Todo.text todo) = false.
Proof.
  destruct (run_store_texts ops [] 1 (Forall_nil _)) as (l & n & Hrun & Hl).
  exists l, n. split; [exact Hrun|].
  intros todo Hin. rewrite Forall_forall in Hl. specialize (Hl todo Hin).
  split; [apply Hl|]. split; [apply Hl | now apply text_ok_not_blank].
Qed.

(** ** Filters and statistics together *)

Lemma str_eqb_eq (a b : str) : str_eqb a b = true <-> a = b.
Proof.
  revert b. induction a as [|x a IH]; intros [|y b]; simpl;
    try (split; [discriminate | congruence]); [tauto|].
  rewrite andb_true_iff, N.eqb_eq, IH. split.
  - intros [-> ->]. reflexivity.
  - intros [= -> ->]. auto.
Qed.

Lemma length_filter_incomplete (l : list Todo.t) :
  List.length (filter (fun todo => negb (Todo.completed todo)) l) =
  count_completed false l.
Proof.
  unfold count_completed.
  induction l as [|todo l IH]; simpl; [reflexivity|].
  destruct (Todo.completed todo); simpl; now rewrite IH.
Qed.

Lemma filter_partition (f : Todo.t -> bool) (l : list Todo.t) :
  Permutation l (filter f l ++ filter (fun todo => negb (f todo)) l).
Proof.
  induction l as [|todo l IH]; simpl; [constructor|].
  destruct (f todo); simpl.
  - now constructor.
  - now apply Permutation_cons_app.
Qed.

(** X5. The numbers [get_statistics] returns are the lengths of what
    the filters return on the same store: [total] for "전체",
    [completed] for "완료" and [pending] for "미완료". *)
Theorem statistics_count_filters (l : list Todo.t) (n : Z) :
  exists d all done todo,
    get_statistics (store l n) = Ok (d, store l n) /\
    get_filtered_todos filter_all (store l n) = Ok (all, store l n) /\
    get_filtered_todos filter_completed (store l n) = Ok (done, store l n) /\
    get_filtered_todos filter_incomplete (store l n) = Ok (todo, store l n) /\
    Stats.total d = len all /\
    Stats.completed d = len done /\
    Stats.pending d = len todo.
Proof.
  eexists _, _, _, _.
  split; [apply get_statistics_store|].
  split; [apply get_filtered_todos_store|].
  split; [apply get_filtered_todos_store|].
  split; [apply get_filtered_todos_store|].
  cbn. rewrite sum_ones. unfold len.
  rewrite length_filter_completed, length_filter_incomplete.
  pose proof (count_completed_total l). lia.
Qed.

(** X6. The filters "완료" and "미완료" split the store: every task is
    returned by exactly one of them, and the two results together are
    the tasks of the store, each as often as it is there. *)
Theorem filters_split_store (l : list Todo.t) (n : Z) :
  exists done todo,
    get_filtered_todos filter_completed (store l n) = Ok (done, store l n) /\
    get_filtered_todos filter_incomplete (store l n) = Ok (todo, store l n) /\
    Permutation l (done ++ todo) /\
    Forall (fun t => Todo.completed t = true) done /\
    Forall (fun t => Todo.completed t = false) todo.
Proof.
  eexists _, _.
  split; [apply get_filtered_todos_store|].
  split; [apply get_filtered_todos_store|].
  cbn. split; [apply (filter_partition (fun t => Todo.completed t))|].
  split; apply Forall_forall; intros t Hin; apply filter_In in Hin;
    destruct Hin as [_ Hc]; [exact Hc | now apply negb_true_iff].
Qed.

(** X7. A filter name that is neither "완료" nor "미완료" is treated as
    "전체": the whole sequence is returned and the store is left as it
    is. *)
Theorem get_filtered_todos_other_name (filter_type : str)
    (l : list Todo.t) (n : Z) :
  filter_type <> filter_completed ->
  filter_type <> filter_incomplete ->
  get_filtered_todos filter_type (store l n) = Ok (l, store l n).
Proof.
  intros H1 H2. apply get_filtered_todos_else.
  - destruct (str_eqb filter_type filter_completed) eqn:E; [|reflexivity].
    apply str_eqb_eq in E. contradiction.
  - destruct (str_eqb filter_type filter_incomplete) eqn:E; [|reflexivity].
    apply str_eqb_eq in E. contradiction.
Qed.

(** The empty filter name returns every task. *)
Lemma get_filtered_todos_other_name_witness :
  get_filtered_todos []
    (store [Todo.mk 1 buy_milk true clock1; Todo.mk 2 walk_dog false clock1] 3) =
  Ok ([Todo.mk 1 buy_milk true clock1; Todo.mk 2 walk_dog false clock1],
      store [Todo.mk 1 buy_milk true clock1; Todo.mk 2 walk_dog false clock1] 3).
Proof.
  apply (get_filtered_todos_other_name []); discriminate.
Defined.

(** ** Calls one after the other *)

(** X8. On a store where no task has the id [next_id], [add_todo] on a
    text that does not strip to the empty string followed by
    [delete_todo] of the id just given restores the task sequence; the
    counter stays one higher, so the id is not given again. *)
Theorem add_then_delete (now text : str) (l : list Todo.t) (n : Z) :
  strip text <> [] ->
  ~ In n (ids l) ->
  (add_todo now text ;; delete_todo n) (store l n) = Ok (tt, store l (n + 1)).
Proof.
  intros Hne Hn. unfold bind. rewrite add_todo_store by exact Hne.
  rewrite delete_todo_store, filter_app. simpl.
  rewrite Z.eqb_refl. simpl.
  now rewrite filter_other_ids_absent, app_nil_r.
Qed.

(** A task added to a store with the ids 1 and 2 and the counter 3, then
    deleted. *)
Lemma add_then_delete_witness :
  (add_todo clock2 read_book ;; delete_todo 3)
    (store [Todo.mk 1 buy_milk true clock1; Todo.mk 2 walk_dog false clock1] 3) =
  Ok (tt, store [Todo.mk 1 buy_milk true clock1;
                 Todo.mk 2 walk_dog false clock1] (3 + 1)).
Proof.
  apply (add_then_delete clock2 read_book).
  - discriminate.
  - simpl. intuition discriminate.
Defined.

(** X9. After [delete_todo] no task of the store has the id, so
    [toggle_todo] and [update_todo] with that id leave the store as it
    is: a deleted task is never touched again. *)
Theorem deleted_id_is_gone (todo_id : Z) (l : list Todo.t) (n : Z) :
  exists l',
    delete_todo todo_id (store l n) = Ok (tt, store l' n) /\
    ~ In todo_id (ids l') /\
    toggle_todo todo_id (store l' n) = Ok (tt, store l' n) /\
    (forall new_text,
       update_todo todo_id new_text (store l' n) = Ok (tt, store l' n)).
Proof.
  eexists. split; [apply delete_todo_store|].
  assert (Habs : ~ In todo_id
                     (ids (filter (fun todo => negb (Todo.id todo =? todo_id)) l))).
  { intros Hin. apply in_map_iff in Hin. destruct Hin as (todo & Hid & Hin).
    apply filter_In in Hin. destruct Hin as [_ Hk].
    rewrite <- Hid, Z.eqb_refl in Hk. discriminate. }
  split; [exact Habs|]. split.
  - rewrite toggle_todo_store. now rewrite for_first_absent.
  - intros new_text. destruct (strip new_text) eqn:E.
    + now apply update_todo_blank.
    + rewrite update_todo_store by congruence. now rewrite for_first_absent.
Qed.

(** ** Statistics after a call *)

(** [get_statistics] in terms of the counts of the store. *)
Lemma get_statistics_counts (l : list Todo.t) (n : Z) :
  get_statistics (store l n) =
  Ok (Stats.mk (Z.of_nat (List.length l))
               (Z.of_nat (count_completed true l))
               (Z.of_nat (count_completed false l)),
      store l n).
Proof.
  rewrite get_statistics_store, sum_ones, length_filter_completed.
  unfold len. pose proof (count_completed_total l).
  do 2 f_equal. f_equal. lia.
Qed.

Lemma count_completed_app (b : bool) (l1 l2 : list Todo.t) :
  count_completed b (l1 ++ l2) =
  (count_completed b l1 + count_completed b l2)%nat.
Proof. unfold count_completed. now rewrite map_app, count_occ_app. Qed.

Lemma count_completed_cons (b : bool) (todo : Todo.t) (l : list Todo.t) :
  count_completed b (todo :: l) =
  ((if Bool.eqb (Todo.completed todo) b then 1 else 0) + count_completed b l)%nat.
Proof.
  unfold count_completed. simpl.
  destruct (Todo.completed todo), b; simpl; reflexivity.
Qed.

Lemma count_completed_mark_all (l : list Todo.t) :
  count_completed true (map (Todo.set_completed true) l) = List.length l /\
  count_completed false (map (Todo.set_completed true) l) = 0%nat.
Proof.
  unfold count_completed.
  induction l as [|todo l [IH1 IH2]]; simpl; [auto|].
  now rewrite IH1, IH2.
Qed.

(** With unique ids, the tasks with another id than a task's are the
    tasks before and after it. *)
Lemma filter_other_ids_split (l1 l2 : list Todo.t) (todo : Todo.t) :
  NoDup (ids (l1 ++ todo :: l2)) ->
  filter (fun x => negb (Todo.id x =? Todo.id todo)) (l1 ++ todo :: l2) =
  l1 ++ l2.
Proof.
  intros Hnd. apply nodup_first in Hnd. destruct Hnd as [H1 H2].
  rewrite filter_app. simpl. rewrite Z.eqb_refl. simpl.
  now rewrite !filter_other_ids_absent.
Qed.

(** X10. [toggle_todo] on an id that a task has leaves [total] as it
    was; when the task it reaches was not completed, [completed] grows
    by one and [pending] falls by one, and the other way round when it
    was completed. *)
Theorem toggle_todo_statistics (todo_id : Z) (l1 l2 : list Todo.t)
    (todo : Todo.t) (n : Z) :
  Todo.id todo = todo_id ->
  ~ In todo_id (ids l1) ->
  exists d d' l',
    get_statistics (store (l1 ++ todo :: l2) n) =
    Ok (d, store (l1 ++ todo :: l2) n) /\
    (toggle_todo todo_id ;; get_statistics) (store (l1 ++ todo :: l2) n) =
    Ok (d', store l' n) /\
    Stats.total d' = Stats.total d /\
    Stats.completed d' = Stats.completed d + toggle_delta (Todo.completed todo) /\
    Stats.pending d' = Stats.pending d - toggle_delta (Todo.completed todo).
Proof.
  intros Hid Hl1. eexists _, _, _.
  split; [apply get_statistics_counts|]. split.
  - unfold bind. rewrite toggle_todo_store.
    rewrite for_first_present by assumption. apply get_statistics_counts.
  - cbn [Stats.total Stats.completed Stats.pending].
    rewrite !length_app, !count_completed_app, !count_completed_cons.
    cbn [List.length Todo.set_completed Todo.completed].
    destruct (Todo.completed todo); cbn; lia.
Qed.

(** Toggling the second of two tasks, which was not completed. *)
Lemma toggle_todo_statistics_witness :
  exists d d' l',
    get_statistics
      (store ([Todo.mk 1 buy_milk true clock1] ++
              Todo.mk 2 walk_dog false clock1 :: []) 3) =
    Ok (d, store ([Todo.mk 1 buy_milk true clock1] ++
                  Todo.mk 2 walk_dog false clock1 :: []) 3) /\
    (toggle_todo 2 ;; get_statistics)
      (store ([Todo.mk 1 buy_milk true clock1] ++
              Todo.mk 2 walk_dog false clock1 :: []) 3) =
    Ok (d', store l' 3) /\
    Stats.total d' = Stats.total d /\
    Stats.completed d' =
    Stats.completed d +
    toggle_delta (Todo.completed (Todo.mk 2 walk_dog false clock1)) /\
    Stats.pending d' =
    Stats.pending d -
    toggle_delta (Todo.completed (Todo.mk 2 walk_dog false clock1)).
Proof.
  apply (toggle_todo_statistics 2 [Todo.mk 1 buy_milk true clock1] []
           (Todo.mk 2 walk_dog false clock1) 3).
  - reflexivity.
  - simpl. intuition discriminate.
Defined.

(** X11. With unique ids, [delete_todo] on the id of a task lowers
    [total] by one, and by one as well [completed] when the task was
    completed and [pending] when it was not. *)
Theorem delete_todo_statistics (l1 l2 : list Todo.t) (todo : Todo.t) (n : Z) :
  NoDup (ids (l1 ++ todo :: l2)) ->
  exists d d' l',
    get_statistics (store (l1 ++ todo :: l2) n) =
    Ok (d, store (l1 ++ todo :: l2) n) /\
    (delete_todo (Todo.id todo) ;; get_statistics) (store (l1 ++ todo :: l2) n) =
    Ok (d', store l' n) /\
    Stats.total d' = Stats.total d - 1 /\
    Stats.completed d' =
    Stats.completed d - (if Todo.completed todo then 1 else 0) /\
    Stats.pending d' =
    Stats.pending d - (if Todo.completed todo then 0 else 1).
Proof.
  intros Hnd. eexists _, _, _.
  split; [apply get_statistics_counts|]. split.
  - unfold bind. rewrite delete_todo_store.
    rewrite filter_other_ids_split by assumption. apply get_statistics_counts.
  - cbn [Stats.total Stats.completed Stats.pending].
    rewrite !length_app, !count_completed_app, !count_completed_cons.
    cbn [List.length].
    destruct (Todo.completed todo); cbn; lia.
Qed.

(** Deleting the first of two tasks, which was completed. *)
Lemma delete_todo_statistics_witness :
  exists d d' l',
    get_statistics
      (store ([] ++ Todo.mk 1 buy_milk true clock1 ::
              [Todo.mk 2 walk_dog false clock1]) 3) =
    Ok (d, store ([] ++ Todo.mk 1 buy_milk true clock1 ::
                  [Todo.mk 2 walk_dog false clock1]) 3) /\
    (delete_todo (Todo.id (Todo.mk 1 buy_milk true clock1)) ;; get_statistics)
      (store ([] ++ Todo.mk 1 buy_milk true clock1 ::
              [Todo.mk 2 walk_dog false clock1]) 3) =
    Ok (d', store l' 3) /\
    Stats.total d' = Stats.total d - 1 /\
    Stats.completed d' =
    Stats.completed d -
    (if Todo.completed (Todo.mk 1 buy_milk true clock1) then 1 else 0) /\
    Stats.pending d' =
    Stats.pending d -
    (if Todo.completed (Todo.mk 1 buy_milk true clock1) then 0 else 1).
Proof.
  apply (delete_todo_statistics [] [Todo.mk 2 walk_dog false clock1]
           (Todo.mk 1 buy_milk true clock1) 3).
  simpl. repeat constructor; simpl; intuition discriminate.
Defined.

(** X12. After [mark_all_completed], [get_statistics] returns the
    number of tasks both as [total] and as [completed], and 0 as
    [pending]; and a second [mark_all_completed] changes nothing. *)
Theorem mark_all_completed_statistics (l : list Todo.t) (n : Z) :
  exists d l',
    (mark_all_completed ;; get_statistics) (store l n) = Ok (d, store l' n) /\
    Stats.total d = len l /\
    Stats.completed d = len l /\
    Stats.pending d = 0 /\
    mark_all_completed (store l' n) = Ok (tt, store l' n).
Proof.
  destruct (count_completed_mark_all l) as [Ht Hf].
  eexists _, _. split.
  - unfold bind. rewrite mark_all_completed_store.
    apply get_statistics_counts.
  - cbn [Stats.total Stats.completed Stats.pending].
    rewrite Ht, Hf, length_map. unfold len. repeat split.
    rewrite mark_all_completed_store, map_map. reflexivity.
Qed.

(** X13. [add_todo] on a text that does not strip to the empty string
    raises [total] and [pending] by one and leaves [completed] as it
    was, and the filter "미완료" then returns what it returned before
    followed by the new task. *)
Theorem add_todo_statistics (now text : str) (l : list Todo.t) (n : Z) :
  strip text <> [] ->
  exists d d' l' old todo,
    get_statistics (store l n) = Ok (d, store l n) /\
    (add_todo now text ;; get_statistics) (store l n) =
    Ok (d', store l' (n + 1)) /\
    Stats.total d' = Stats.total d + 1 /\
    Stats.completed d' = Stats.completed d /\
    Stats.pending d' = Stats.pending d + 1 /\
    get_filtered_todos filter_incomplete (store l n) = Ok (old, store l n) /\
    get_filtered_todos filter_incomplete (store l' (n + 1)) =
    Ok (old ++ [todo], store l' (n + 1)) /\
    Todo.id todo = n /\ Todo.text todo = strip text.
Proof.
  intros Hne. eexists _, _, _, _, (Todo.mk n (strip text) false now).
  split; [apply get_statistics_counts|]. split.
  { unfold bind. rewrite add_todo_store by exact Hne.
    apply get_statistics_counts. }
  cbn [Stats.total Stats.completed Stats.pending].
  rewrite !length_app, !count_completed_app, !count_completed_cons.
  cbn [List.length Todo.completed Bool.eqb count_completed map count_occ].
  split; [lia|]. split; [lia|]. split; [lia|].
  split; [apply get_filtered_todos_store|].
  rewrite get_filtered_todos_store. simpl str_eqb. cbv iota.
  split; [now rewrite filter_app | split; reflexivity].
Qed.

(** A third task added to two. *)
Lemma add_todo_statistics_witness :
  exists d d' l' old todo,
    get_statistics
      (store [Todo.mk 1 buy_milk true clock1; Todo.mk 2 walk_dog false clock1] 3) =
    Ok (d, store [Todo.mk 1 buy_milk true clock1;
                  Todo.mk 2 walk_dog false clock1] 3) /\
    (add_todo clock2 read_book ;; get_statistics)
      (store [Todo.mk 1 buy_milk true clock1; Todo.mk 2 walk_dog false clock1] 3) =
    Ok (d', store l' (3 + 1)) /\
    Stats.total d' = Stats.total d + 1 /\
    Stats.completed d' = Stats.completed d /\
    Stats.pending d' = Stats.pending d + 1 /\
    get_filtered_todos filter_incomplete
      (store [Todo.mk 1 buy_milk true clock1; Todo.mk 2 walk_dog false clock1] 3) =
    Ok (old, store [Todo.mk 1 buy_milk true clock1;
                    Todo.mk 2 walk_dog false clock1] 3) /\
    get_filtered_todos filter_incomplete (store l' (3 + 1)) =
    Ok (old ++ [todo], store l' (3 + 1)) /\
    Todo.id todo = 3 /\ Todo.text todo = strip read_book.
Proof.
  apply (add_todo_statistics clock2 read_book). discriminate.
Defined.

(** ** Calls in another order *)

Section ForFirstTwo.
Variables i j : Z.
Variables f g : Todo.t -> Todo.t.
Hypothesis f_id : forall todo, Todo.id (f todo) = Todo.id todo.
Hypothesis g_id : forall todo, Todo.id (g todo) = Todo.id todo.

(** Two loops that keep the ids reach the same tasks in either order. *)
Lemma for_first_comm (l : list Todo.t) :
  (forall todo, f (g todo) = g (f todo)) ->
  for_first i f (for_first j g l) = for_first j g (for_first i f l).
Proof.
  intros Hfg. induction l as [|x l IH]; simpl; [reflexivity|].
  destruct (Todo.id x =? i) eqn:Ei, (Todo.id x =? j) eqn:Ej; simpl;
    rewrite ?f_id, ?g_id, ?Ei, ?Ej; try reflexivity.
  - now rewrite Hfg.
  - now rewrite IH.
Qed.

(** A second loop for the same id reaches the task the first reached. *)
Lemma for_first_again (l : list Todo.t) :
  for_first i g (for_first i f l) =
  for_first i (fun todo => g (f todo)) l.
Proof.
  induction l as [|x l IH]; simpl; [reflexivity|].
  destruct (Todo.id x =? i) eqn:Ei; simpl.
  - now rewrite f_id, Ei.
  - now rewrite Ei, IH.
Qed.

(** Dropping the tasks with one id and looping for another, or the same,
    can be done in either order. *)
Lemma filter_for_first (l : list Todo.t) :
  filter (fun todo => negb (Todo.id todo =? i)) (for_first j f l) =
  for_first j f (filter (fun todo => negb (Todo.id todo =? i)) l).
Proof.
  induction l as [|x l IH]; simpl; [reflexivity|].
  destruct (Z.eqb_spec (Todo.id x) j) as [Ej|Ej]; simpl.
  - rewrite f_id. destruct (Z.eqb_spec (Todo.id x) i) as [Ei|Ei]; simpl.
    + symmetry. apply for_first_absent.
      intros Hin. apply in_map_iff in Hin. destruct Hin as (y & Hy & Hin).
      apply filter_In in Hin. destruct Hin as [_ Hk].
      assert (E : Todo.id y = i) by congruence.
      rewrite E, Z.eqb_refl in Hk. discriminate.
    + apply Z.eqb_eq in Ej. now rewrite Ej.
  - destruct (Todo.id x =? i); simpl.
    + exact IH.
    + apply Z.eqb_neq in Ej. now rewrite Ej, IH.
Qed.
End ForFirstTwo.

Lemma filter_comm (f g : Todo.t -> bool) (l : list Todo.t) :
  filter f (filter g l) = filter g (filter f l).
Proof.
  induction l as [|x l IH]; simpl; [reflexivity|].
  destruct (f x) eqn:Ef, (g x) eqn:Eg; simpl; rewrite ?Ef, ?Eg, IH;
    reflexivity.
Qed.

Lemma set_text_id (s : str) (todo : Todo.t) :
  Todo.id (Todo.set_text s todo) = Todo.id todo.
Proof. reflexivity. Qed.

(** X14. Of two [update_todo] calls in a row on the same id, the second
    on a text that does not strip to the empty string, only the second
    counts: the store is as if the first had not been made. *)
Theorem update_todo_last_wins (todo_id : Z) (text1 text2 : str)
    (l : list Todo.t) (n : Z) :
  strip text2 <> [] ->
  (update_todo todo_id text1 ;; update_todo todo_id text2) (store l n) =
  update_todo todo_id text2 (store l n).
Proof.
  intros H2. unfold bind. destruct (strip text1) eqn:E1.
  - now rewrite update_todo_blank.
  - rewrite (update_todo_store todo_id text1) by congruence.
    rewrite !update_todo_store by assumption.
    rewrite for_first_again by apply set_text_id. reflexivity.
Qed.

(** Task 2 renamed twice. *)
Lemma update_todo_last_wins_witness :
  (update_todo 2 buy_milk ;; update_todo 2 read_book)
    (store [Todo.mk 1 buy_milk true clock1; Todo.mk 2 walk_dog false clock1] 3) =
  update_todo 2 read_book
    (store [Todo.mk 1 buy_milk true clock1; Todo.mk 2 walk_dog false clock1] 3).
Proof.
  apply (update_todo_last_wins 2 buy_milk read_book). discriminate.
Defined.

(** X15. On every store, for every two ids, equal or not, two
    [toggle_todo] calls, two [delete_todo] calls, a [delete_todo] and a
    [toggle_todo], a [delete_todo] and an [update_todo], and a
    [toggle_todo] and an [update_todo] leave the same store in either
    order. *)
Theorem calls_commute (i j : Z) (text : str) (l : list Todo.t) (n : Z) :
  (toggle_todo i ;; toggle_todo j) (store l n) =
  (toggle_todo j ;; toggle_todo i) (store l n) /\
  (delete_todo i ;; delete_todo j) (store l n) =
  (delete_todo j ;; delete_todo i) (store l n) /\
  (delete_todo i ;; toggle_todo j) (store l n) =
  (toggle_todo j ;; delete_todo i) (store l n) /\
  (delete_todo i ;; update_todo j text) (store l n) =
  (update_todo j text ;; delete_todo i) (store l n) /\
  (toggle_todo i ;; update_todo j text) (store l n) =
  (update_todo j text ;; toggle_todo i) (store l n).
Proof.
  unfold bind. split; [|split; [|split; [|split]]].
  - rewrite !toggle_todo_store.
    rewrite for_first_comm; auto using set_completed_id.
  - rewrite !delete_todo_store. now rewrite filter_comm.
  - rewrite toggle_todo_store, !delete_todo_store, toggle_todo_store.
    rewrite filter_for_first; auto using set_completed_id.
  - destruct (strip text) eqn:E.
    + rewrite delete_todo_store. now rewrite !update_todo_blank.
    + rewrite delete_todo_store, !update_todo_store by congruence.
      rewrite delete_todo_store.
      rewrite filter_for_first; auto using set_text_id.
  - destruct (strip text) eqn:E.
    + rewrite toggle_todo_store. now rewrite !update_todo_blank.
    + rewrite toggle_todo_store, !update_todo_store by congruence.
      rewrite toggle_todo_store.
      rewrite for_first_comm; auto using set_completed_id, set_text_id.
Qed.

(** ** What no call changes *)

Lemma in_for_first (todo_id : Z) (body : Todo.t -> Todo.t)
    (l : list Todo.t) (todo' : Todo.t) :
  In todo' (for_first todo_id body l) ->
  exists todo, In todo l /\ (todo' = todo \/ todo' = body todo).
Proof.
  induction l as [|x l IH]; simpl; [intros []|].
  destruct (Todo.id x =? todo_id); simpl.
  - intros [Hx|H]; [exists x | exists todo']; auto.
  - intros [Hx|H]; [exists x; auto|].
    destruct (IH H) as (todo & Hin & Ht). exists todo. auto.
Qed.

(** X16. No call changes the id or the creation time of a task: every
    task of the store after a call has the id and the creation time of a
    task that was there before the call, unless the call is an
    [add_todo] and the task is the new one, with the id [next_id] had,
    the clock reading of the call, and not completed. *)
Theorem calls_keep_id_and_created_at (o : op) (l : list Todo.t) (n : Z) :
  exists r l' n',
    call o (store l n) = Ok (r, store l' n') /\
    forall todo',
      In todo' l' ->
      (exists todo,
         In todo l /\ Todo.id todo' = Todo.id todo /\
         Todo.created_at todo' = Todo.created_at todo) \/
      (exists now text,
         o = Add now text /\ Todo.id todo' = n /\
         Todo.created_at todo' = now /\ Todo.completed todo' = false).
Proof.
  assert (Hsame : forall todo', In todo' l ->
            exists todo, In todo l /\ Todo.id todo' = Todo.id todo /\
              Todo.created_at todo' = Todo.created_at todo) by eauto.
  assert (Hloop : forall i body todo',
            (forall t, Todo.id (body t) = Todo.id t) ->
            (forall t, Todo.created_at (body t) = Todo.created_at t) ->
            In todo' (for_first i body l) ->
            exists todo, In todo l /\ Todo.id todo' = Todo.id todo /\
              Todo.created_at todo' = Todo.created_at todo).
  { intros i body todo' Hi Hc Hin. apply in_for_first in Hin.
    destruct Hin as (todo & Hin & [->| ->]); exists todo; auto. }
  destruct o as [|now text|i|i|i new_text|ft| | |]; unfold call, bind.
  - rewrite initialize_session_state_store.
    eexists _, _, _. split; [reflexivity|]. auto.
  - destruct (strip text) eqn:E.
    + rewrite add_todo_blank by assumption.
      eexists _, _, _. split; [reflexivity|]. auto.
    + rewrite add_todo_store by congruence.
      eexists _, _, _. split; [reflexivity|].
      intros todo' Hin. apply in_app_or in Hin.
      destruct Hin as [Hin|[<-|[]]]; [auto|].
      right. exists now, text. auto.
  - rewrite delete_todo_store. eexists _, _, _. split; [reflexivity|].
    intros todo' Hin. apply filter_In in Hin. left. apply Hsame, Hin.
  - rewrite toggle_todo_store. eexists _, _, _. split; [reflexivity|].
    intros todo' Hin. left. eapply Hloop; [| |exact Hin]; reflexivity.
  - destruct (strip new_text) eqn:E.
    + rewrite update_todo_blank by assumption.
      eexists _, _, _. split; [reflexivity|]. auto.
    + rewrite update_todo_store by congruence.
      eexists _, _, _. split; [reflexivity|].
      intros todo' Hin. left. eapply Hloop; [| |exact Hin]; reflexivity.
  - rewrite get_filtered_todos_store.
    eexists _, _, _. split; [reflexivity|]. auto.
  - rewrite get_statistics_store.
    eexists _, _, _. split; [reflexivity|]. auto.
  - rewrite mark_all_completed_store. eexists _, _, _. split; [reflexivity|].
    intros todo' Hin. apply in_map_iff in Hin.
    destruct Hin as (todo & <- & Hin). left. exists todo. auto.
  - rewrite delete_all_todos_store. eexists _, _, _. split; [reflexivity|].
    intros todo' [].
Qed.

(** ** The counter *)

Lemma length_for_first (todo_id : Z) (body : Todo.t -> Todo.t)
    (l : list Todo.t) :
  List.length (for_first todo_id body l) = List.length l.
Proof.
  induction l as [|x l IH]; simpl; [reflexivity|].
  destruct (Todo.id x =? todo_id); simpl; now rewrite ?IH.
Qed.

(** A call moves the counter by one when it creates a task and not at
    all otherwise, and adds at most that to the number of tasks. *)
Lemma call_counts (o : op) (l : list Todo.t) (n : Z) :
  exists r l',
    call o (store l n) =
    Ok (r, store l' (n + Z.of_nat (creations [o]))) /\
    (List.length l' <= List.length l + creations [o])%nat.
Proof.
  unfold creations.
  destruct o as [|now text|i|i|i new_text|ft| | |];
    cbn [filter reads_next_id]; unfold call, bind.
  - rewrite initialize_session_state_store. cbn. rewrite Z.add_0_r.
    eexists _, _. split; [reflexivity | lia].
  - destruct (strip text) eqn:E.
    + rewrite add_todo_blank by assumption. cbn. rewrite Z.add_0_r.
      eexists _, _. split; [reflexivity | lia].
    + rewrite add_todo_store by congruence.
      cbn. eexists _, _. split; [reflexivity|].
      rewrite length_app. simpl. lia.
  - rewrite delete_todo_store. cbn. rewrite Z.add_0_r.
    eexists _, _. split; [reflexivity|].
    pose proof (filter_length_le (fun todo => negb (Todo.id todo =? i)) l). lia.
  - rewrite toggle_todo_store. cbn. rewrite Z.add_0_r.
    eexists _, _. split; [reflexivity|]. rewrite length_for_first. lia.
  - destruct (strip new_text) eqn:E.
    + rewrite update_todo_blank by assumption. cbn. rewrite Z.add_0_r.
      eexists _, _. split; [reflexivity | lia].
    + rewrite update_todo_store by congruence.
      cbn. rewrite Z.add_0_r.
      eexists _, _. split; [reflexivity|]. rewrite length_for_first. lia.
  - rewrite get_filtered_todos_store. cbn. rewrite Z.add_0_r.
    eexists _, _. split; [reflexivity | lia].
  - rewrite get_statistics_store. cbn. rewrite Z.add_0_r.
    eexists _, _. split; [reflexivity | lia].
  - rewrite mark_all_completed_store. cbn. rewrite Z.add_0_r.
    eexists _, _. split; [reflexivity|]. rewrite length_map. lia.
  - rewrite delete_all_todos_store. cbn. rewrite Z.add_0_r.
    eexists _, _. split; [reflexivity|]. simpl. lia.
Qed.

Lemma run_counts (ops : list op) (l : list Todo.t) (n : Z) :
  exists l',
    run ops (store l n) = Ok (tt, store l' (n + Z.of_nat (creations ops))) /\
    (List.length l' <= List.length l + creations ops)%nat.
Proof.
  revert l n. induction ops as [|o ops IH]; intros l n.
  - exists l. cbn. rewrite Z.add_0_r. split; [reflexivity | lia].
  - destruct (call_counts o l n) as (r & l1 & Hcall & Hlen1).
    destruct (IH l1 (n + Z.of_nat (creations [o]))) as (l2 & Hrun & Hlen2).
    exists l2. cbn [run]. unfold bind. rewrite Hcall, Hrun.
    assert (Hc : creations (o :: ops) = (creations [o] + creations ops)%nat).
    { unfold creations. simpl. destruct (reads_next_id o); simpl; lia. }
    rewrite Hc. split; [do 3 f_equal; lia | lia].
Qed.

(** X17. After any calls from the initial store, [next_id] is one more
    than the number of [add_todo] calls made on a text that does not
    strip to the empty string, and the store holds at most that many
    tasks: the counter counts the tasks ever created, and nothing but
    [add_todo] moves it. *)
Theorem next_id_counts_creations (ops : list op) :
  exists l,
    run ops initial_store = Ok (tt, store l (1 + Z.of_nat (creations ops))) /\
    (List.length l <= creations ops)%nat.
Proof.
  destruct (run_counts ops [] 1) as (l & Hrun & Hlen).
  exists l. split; [exact Hrun | exact Hlen].
Qed.

(** X18. [initialize_session_state] does not look at the tasks when it
    sets a missing [next_id]: on a session that holds tasks but no
    [next_id], the counter starts at 1 and the next task created gets
    the id 1, so when a task with the id 1 is there the ids are no
    longer distinct. *)
Theorem initialize_session_state_resets_counter (now text : str)
    (l : list Todo.t) :
  strip text <> [] ->
  exists todo,
    run [Initialize; Add now text]
      {| session_state.todos := Some l; session_state.next_id := None |} =
    Ok (tt, store (l ++ [todo]) 2) /\
    Todo.id todo = 1 /\
    (In 1 (ids l) -> ~ NoDup (ids (l ++ [todo]))).
Proof.
  intros Hne. exists (Todo.mk 1 (strip text) false now).
  split; [|split; [reflexivity|]].
  - cbn [run call]. unfold bind.
    change (initialize_session_state
              {| session_state.todos := Some l; session_state.next_id := None |})
      with (Ok (tt, store l 1)).
    cbn [ret]. now rewrite add_todo_store.
  - intros Hin Hnd. rewrite ids_app in Hnd. simpl in Hnd.
    apply NoDup_remove_2 in Hnd. apply Hnd. now rewrite app_nil_r.
Qed.

(** A session that kept a task with the id 1 but lost its counter. *)
Lemma initialize_session_state_resets_counter_witness :
  exists todo,
    run [Initialize; Add clock2 walk_dog]
      {| session_state.todos := Some [Todo.mk 1 buy_milk false clock1];
         session_state.next_id := None |} =
    Ok (tt, store ([Todo.mk 1 buy_milk false clock1] ++ [todo]) 2) /\
    Todo.id todo = 1 /\
    (In 1 (ids [Todo.mk 1 buy_milk false clock1]) ->
     ~ NoDup (ids ([Todo.mk 1 buy_milk false clock1] ++ [todo]))).
Proof.
  apply (initialize_session_state_resets_counter clock2 walk_dog
           [Todo.mk 1 buy_milk false clock1]).
  discriminate.
Defined.
